(** * CarND-MPC-Project: the telemetry handler of [src/main.cpp]

    A shallow embedding of [hasData], [polyeval], [polyfit], [global2car]
    and of the [onMessage] callback installed by [main], followed by the
    properties of the control pipeline that the design document states.

    Conventions.
    - [size_t] values are integers in [0, 2^64) with the wrap-around
      written out; [std::string::npos] is [2^64 - 1].
    - [double] is a type [D] with the operations the source applies to it
      ([DoubleOps]); no law is assumed about them, so a statement proved
      for every [D] holds for IEEE-754 binary64 as it does for the real
      numbers.  Statements that need algebra are proved for [D := R].
    - Eigen's QR solve, the JSON library and [MPC::Solve] are not part of
      [main.cpp]; they are fields of [Externals].
    - An access outside a [std::vector] has undefined behaviour: the
      embedding stops there with [UndefinedBehaviour] and says nothing
      about what the process does next (it may well run on with whatever
      the read returned). *)

From Stdlib Require Import ZArith List String Ascii Bool Lia.
From Stdlib Require Import Reals Lra.
From Stdlib Require Import Uint63 Floats.
Import ListNotations.

Local Open Scope Z_scope.

(** ** [std::string] searching, as used by [hasData] *)

Module StdString.

Definition npos : Z := 2 ^ 64 - 1.

(** Arithmetic on [size_t] is modulo [2^64]. *)
Definition wrap (z : Z) : Z := z mod 2 ^ 64.

Definition size (s : string) : Z := Z.of_nat (String.length s).

Fixpoint find_from (pat s : string) (i : Z) : Z :=
  if prefix pat s then i
  else match s with
       | EmptyString => npos
       | String _ s' => find_from pat s' (i + 1)
       end.

(** [s.find(pat)]: position of the first occurrence of [pat], or [npos]. *)
Definition find (s pat : string) : Z := find_from pat s 0.

Fixpoint mem_char (c : ascii) (chars : string) : bool :=
  match chars with
  | EmptyString => false
  | String d chars' => Ascii.eqb c d || mem_char c chars'
  end.

Fixpoint find_first_of_from (chars s : string) (i : Z) : Z :=
  match s with
  | EmptyString => npos
  | String c s' =>
      if mem_char c chars then i else find_first_of_from chars s' (i + 1)
  end.

(** [s.find_first_of(chars)]: position of the first character of [s]
    that occurs in [chars], or [npos]. *)
Definition find_first_of (s chars : string) : Z :=
  find_first_of_from chars s 0.

Fixpoint rfind_from (pat s : string) (i : Z) : Z :=
  match s with
  | EmptyString => if prefix pat s then i else npos
  | String _ s' =>
      let later := rfind_from pat s' (i + 1) in
      if later =? npos then (if prefix pat s then i else npos) else later
  end.

(** [s.rfind(pat)]: position of the last occurrence of [pat], or [npos]. *)
Definition rfind (s pat : string) : Z := rfind_from pat s 0.

(** [s.substr(pos, count)] for [pos <= s.size()]: the characters
    [pos, pos + min(count, size - pos)).  ([std::out_of_range] is thrown
    for [pos > s.size()]; [hasData] only passes a position returned by a
    successful search, see [find_first_of_in_range].) *)
Definition substr (s : string) (pos count : Z) : string :=
  substring (Z.to_nat pos) (Z.to_nat (Z.min count (size s - pos))) s.

End StdString.

Import StdString.

Local Open Scope string_scope.
Local Open Scope Z_scope.

(** Checks if the SocketIO event has JSON data (main.cpp, l.23-33). *)
Definition hasData (s : string) : string :=
  let found_null := find s "null" in
  let b1 := find_first_of s "[" in
  let b2 := rfind s "}]" in
  if negb (found_null =? npos) then EmptyString
  else if negb (b1 =? npos) && negb (b2 =? npos)
       then substr s b1 (wrap (b2 - b1 + 2))
       else EmptyString.


(** A [std::string] built from a [char] pointer: the bytes before the
    first NUL byte.  (If
    there is none the constructor reads past the buffer; the embedding
    then takes the bytes it was given.) *)
Fixpoint until_nul (data : string) : string :=
  match data with
  | EmptyString => EmptyString
  | String c data' =>
      if Ascii.eqb c "000" then EmptyString else String c (until_nul data')
  end.

(** l.93, [string(data).substr(0, length)]: the message is cut at its
    first NUL byte, and to [length] bytes. *)
Definition received_text (data : string) (length : Z) : string :=
  substr (until_nul data) 0 length.

(** *** What the searches are expected to find *)

(** The text from position [k] on. *)
Fixpoint drop (k : nat) (s : string) : string :=
  match k, s with
  | O, _ => s
  | S k', String _ s' => drop k' s'
  | S _, EmptyString => EmptyString
  end.

(** [pat] occurs in [s] at position [k]. *)
Definition occurs_at (pat s : string) (k : nat) : Prop :=
  (k <= String.length s)%nat /\ prefix pat (drop k s) = true.

Definition contains (pat s : string) : Prop := exists k, occurs_at pat s k.

(** The last occurrence of [pat] in [s] is at [k]. *)
Definition last_at (pat s : string) (k : nat) : Prop :=
  occurs_at pat s k /\ forall j, (k < j)%nat -> ~ occurs_at pat s j.

(** [s] has the character [c] at position [k]. *)
Definition char_at (c : ascii) (s : string) (k : nat) : Prop :=
  String.get k s = Some c.

(** The first [c] of [s] is at [k]. *)
Definition first_char_at (c : ascii) (s : string) (k : nat) : Prop :=
  char_at c s k /\ forall j, (j < k)%nat -> ~ char_at c s j.

(** ** The arithmetic of [double] *)

(** The operations [main.cpp] applies to [double] values: the four
    arithmetic operators and unary minus, decimal literals
    ([dlit m e] is the literal [m * 10^-e]), the constant [M_PI], and the
    [<math.h>] functions [sin], [cos], [atan] and [pow] ([dpow x i] stands
    for [pow(x, i)] with the [int] loop index [i >= 0] promoted to
    [double]). *)
Class DoubleOps (D : Type) : Type := {
  dadd : D -> D -> D;
  dsub : D -> D -> D;
  dmul : D -> D -> D;
  ddiv : D -> D -> D;
  dneg : D -> D;
  dlit : Z -> nat -> D;
  M_PI : D;
  dsin : D -> D;
  dcos : D -> D;
  datan : D -> D;
  dpow : D -> nat -> D
}.

Declare Scope double_scope.
Delimit Scope double_scope with D.
Infix "+" := dadd : double_scope.
Infix "-" := dsub : double_scope.
Infix "*" := dmul : double_scope.
Infix "/" := ddiv : double_scope.
Notation "- x" := (dneg x) : double_scope.

(** ** Outcomes of code that can abort *)

(** Where the embedding of the handler stops short of a normal return: a
    failed [assert] ([abort]) and an exception that nothing catches
    ([std::terminate]) end the process; an access outside a
    [std::vector] has undefined behaviour, and [UndefinedBehaviour] only
    marks that the C++ program has no defined meaning from there on: the
    process itself may go on, with the values the read happened to
    return. *)
Inductive fault : Type :=
| AssertionFailed
| UncaughtException
| UndefinedBehaviour.

Inductive res (A : Type) : Type :=
| Ok (a : A)
| Fault (f : fault).
Arguments Ok {A} a.
Arguments Fault {A} f.

Definition bind {A B : Type} (r : res A) (k : A -> res B) : res B :=
  match r with
  | Ok a => k a
  | Fault f => Fault f
  end.

Notation "x <- r ;; k" := (bind r (fun x => k))
  (at level 61, r at next level, right associativity).
Notation "' p <- r ;; k" := (bind r (fun p => k))
  (at level 61, p pattern, r at next level, right associativity).

(** [v[i]] on a [std::vector<double>]: no bounds check. *)
Definition vec_at {A : Type} (v : list A) (i : nat) : res A :=
  match nth_error v i with
  | Some a => Ok a
  | None => Fault UndefinedBehaviour
  end.

(** [v[i]] on an [Eigen::VectorXd]: the index is asserted. *)
Definition eigen_at {A : Type} (v : list A) (i : nat) : res A :=
  match nth_error v i with
  | Some a => Ok a
  | None => Fault AssertionFailed
  end.

(** ** Messages *)

(** The fields the handler reads from [j[1]] (main.cpp, l.102-109). *)
Record telemetry (D : Type) : Type := {
  t_ptsx : list D;
  t_ptsy : list D;
  t_x : D;
  t_y : D;
  t_psi : D;
  t_speed : D;
  t_steering_angle : D;
  t_throttle : D
}.
Arguments t_ptsx {D} _.
Arguments t_ptsy {D} _.
Arguments t_x {D} _.
Arguments t_y {D} _.
Arguments t_psi {D} _.
Arguments t_speed {D} _.
Arguments t_steering_angle {D} _.
Arguments t_throttle {D} _.

(** The fields of [msgJson] (main.cpp, l.171-209). *)
Record command (D : Type) : Type := {
  msg_steering_angle : D;
  msg_throttle : D;
  mpc_x : list D;
  mpc_y : list D;
  next_x : list D;
  next_y : list D
}.
Arguments msg_steering_angle {D} _.
Arguments msg_throttle {D} _.
Arguments mpc_x {D} _.
Arguments mpc_y {D} _.
Arguments next_x {D} _.
Arguments next_y {D} _.

(** What [ws.send] transmits: the ["steer"] event carrying [msgJson], or
    the ["manual"] event with an empty object. *)
Inductive reply (D : Type) : Type :=
| Steer (c : command D)
| Manual.
Arguments Steer {D} c.
Arguments Manual {D}.

(** What one invocation of the handler does.  [Crashed AssertionFailed]
    and [Crashed UncaughtException] are ends of the process;
    [Crashed UndefinedBehaviour] is the point up to which the embedding
    follows the program, not a statement about the process. *)
Inductive outcome (D : Type) : Type :=
| Sent (r : reply D)
| NoReply
| Crashed (f : fault).
Arguments Sent {D} r.
Arguments NoReply {D}.
Arguments Crashed {D} f.

(** ** Code outside [main.cpp] *)

(** Modelled from the spec: [MPC::Solve] (MPC.cpp) is absent.  The spec
    gives a solve a convergence status besides the vector it returns;
    [main.cpp] receives the vector only ([result[0]], [result[1]],
    [result.size()]). *)
Record solve_result (D : Type) : Type := {
  converged : bool;
  values : list D
}.
Arguments converged {D} _.
Arguments values {D} _.

(** - [householderQr_solve A b i] is entry [i] of
      [A.householderQr().solve(b)] (Eigen);
    - [MPC] is the state of the [mpc] object, [Solve] its method;
    - [json_parse] is [json::parse], [json_event] is
      [j[0].get<string>()], [json_telemetry] the eight reads from [j[1]];
      [None] stands for a thrown exception. *)
Class Externals (D : Type) : Type := {
  householderQr_solve : list (list D) -> list D -> nat -> D;
  MPC : Type;
  Solve : MPC -> list D -> list D -> solve_result D * MPC;
  json : Type;
  json_parse : string -> option json;
  json_event : json -> option string;
  json_telemetry : json -> option (telemetry D)
}.

(** ** The functions of [main.cpp] *)

Section Program.

Context {D : Type} {ops : DoubleOps D} {ext : Externals D}.

Local Open Scope double_scope.

Definition pi : D := M_PI.
Definition deg2rad (x : D) : D := x * pi / dlit 180 0.
Definition rad2deg (x : D) : D := x * dlit 180 0 / pi.

(** The loop of [polyeval]: [result += coeffs[i] * pow(x, i)]. *)
Fixpoint polyeval_loop (coeffs : list D) (x : D) (i : nat) (result : D) : D :=
  match coeffs with
  | [] => result
  | c :: coeffs' => polyeval_loop coeffs' x (S i) (result + c * dpow x i)
  end.

(** Evaluate a polynomial (main.cpp, l.36-42). *)
Definition polyeval (coeffs : list D) (x : D) : D :=
  polyeval_loop coeffs x 0%nat (dlit 0 0).

(** Row [j] of the matrix [A] of [polyfit]: [A(j,0) = 1.0], then
    [A(j,i+1) = A(j,i) * xvals(j)] for [i < order]. *)
Fixpoint row_loop (xj prev : D) (order : nat) : list D :=
  match order with
  | O => []
  | S order' => let next := prev * xj in next :: row_loop xj next order'
  end.

Definition design_row (order : nat) (xj : D) : list D :=
  let a0 := dlit 1 0 in a0 :: row_loop xj a0 order.

(** Fit a polynomial (main.cpp, l.47-66).  [xvals.size()] is a signed
    [Eigen::Index], so [xvals.size() - 1] is [-1] for an empty vector. *)
Definition polyfit (xvals yvals : list D) (order : Z) : res (list D) :=
  if negb (Z.of_nat (List.length xvals) =? Z.of_nat (List.length yvals))%Z
  then Fault AssertionFailed
  else if negb ((order >=? 1)%Z && (order <=? Z.of_nat (List.length xvals) - 1)%Z)
  then Fault AssertionFailed
  else
    let A := map (design_row (Z.to_nat order)) xvals in
    Ok (map (householderQr_solve A yvals) (seq 0 (Z.to_nat order + 1))).

(** main.cpp, l.68-79; the returned two-element vector is a pair. *)
Definition global2car (psi px py x_global y_global : D) : D * D :=
  let dx := x_global - px in
  let dy := y_global - py in
  let sin_psi := dsin psi in
  let cos_psi := dcos psi in
  let x_car := dx * cos_psi + dy * sin_psi in
  let y_car := - dx * sin_psi + dy * cos_psi in
  (x_car, y_car).

(** *** The telemetry branch of the handler *)

Definition latency : D := dlit 1 1.
Definition Lf : D := dlit 267 2.

(** l.117-120: predict state in 100ms using kinematic model.  The four
    assignments run in this order, so each right-hand side still reads
    the unmodified [psi] and [v]. *)
Definition predict (px py psi v delta acceleration : D) : D * D * D * D :=
  let px' := px + v * dcos psi * latency in
  let py' := py + v * dsin psi * latency in
  let psi' := psi + v * delta / Lf * latency in
  let v' := v + acceleration * latency in
  (px', py', psi', v').

(** l.127-131: the loop runs over [i < ptsx.size()] and reads [ptsx[i]]
    and [ptsy[i]]; a shorter [ptsy] is read past its end.  The source has
    no check and no exit there: the program runs on with what the read
    returns, which C++ leaves undefined; the embedding follows it up to
    that read only ([Fault UndefinedBehaviour]). *)
Fixpoint transform_waypoints (psi px py : D) (ptsx ptsy : list D)
  : res (list D * list D) :=
  match ptsx with
  | [] => Ok ([], [])
  | x_global :: ptsx' =>
      match ptsy with
      | [] => Fault UndefinedBehaviour
      | y_global :: ptsy' =>
          let coord_car := global2car psi px py x_global y_global in
          '(way_pts_x, way_pts_y) <- transform_waypoints psi px py ptsx' ptsy' ;;
          Ok (fst coord_car :: way_pts_x, snd coord_car :: way_pts_y)
      end
  end.

(** l.111-158: from the telemetry to the arguments of [mpc.Solve]. *)
Definition solver_input (t : telemetry D) : res (list D * list D) :=
  let v := t_speed t * dlit 44704 5 in
  let delta := - t_steering_angle t in
  let '(px, py, psi, v) :=
    predict (t_x t) (t_y t) (t_psi t) v delta (t_throttle t) in
  '(way_pts_x, way_pts_y) <-
    transform_waypoints psi px py (t_ptsx t) (t_ptsy t) ;;
  coeffs <- polyfit way_pts_x way_pts_y 3 ;;
  let cte := polyeval coeffs (dlit 0 0) in
  c1 <- eigen_at coeffs 1 ;;
  let epsi := - datan c1 in
  let state := [dlit 0 0; dlit 0 0; dlit 0 0; v; cte; epsi] in
  Ok (state, coeffs).

(** l.203-206: [for (double i = 0; i < 100.0; i += 2)], fifty samples. *)
Definition reference_samples : list D :=
  map (fun k => dlit (2 * Z.of_nat k) 0) (seq 0 50).

(** l.167-209: from the vector returned by [mpc.Solve] to [msgJson]. *)
Definition steer_message (coeffs result : list D) : res (command D) :=
  r0 <- vec_at result 0 ;;
  r1 <- vec_at result 1 ;;
  let steer_value := - r0 in
  let throttle_value := r1 in
  let n := ((List.length result - 2) / 2)%nat in
  Ok {| msg_steering_angle := steer_value / deg2rad (dlit 25 0);
        msg_throttle := throttle_value;
        mpc_x := firstn n (skipn 2 result);
        mpc_y := firstn n (skipn (n + 2) result);
        next_x := reference_samples;
        next_y := map (polyeval coeffs) reference_samples |}.

(** l.102-224 for a decoded telemetry record. *)
Definition telemetry_cycle (mpc : MPC) (t : telemetry D) : outcome D * MPC :=
  match solver_input t with
  | Fault f => (Crashed f, mpc)
  | Ok (state, coeffs) =>
      let (solved, mpc') := Solve mpc state coeffs in
      match steer_message coeffs (values solved) with
      | Fault f => (Crashed f, mpc')
      | Ok msgJson => (Sent (Steer msgJson), mpc')
      end
  end.

(** The [onMessage] callback from l.94 on (main.cpp, l.94-232); [sdata]
    is the string built at l.93, see [received_text] and
    [onMessage_data]. *)
Definition onMessage (mpc : MPC) (sdata : string) : outcome D * MPC :=
  match sdata with
  | String "4" (String "2" (String _ _)) =>
      let s := hasData sdata in
      if negb (String.eqb s EmptyString) then
        match json_parse s with
        | None => (Crashed UncaughtException, mpc)
        | Some j =>
            match json_event j with
            | None => (Crashed UncaughtException, mpc)
            | Some event =>
                if String.eqb event "telemetry" then
                  match json_telemetry j with
                  | None => (Crashed UncaughtException, mpc)
                  | Some t => telemetry_cycle mpc t
                  end
                else (NoReply, mpc)
            end
        end
      else (Sent Manual, mpc)
  | _ => (NoReply, mpc)
  end.

(** The [onMessage] callback with l.93 (main.cpp, l.88-232): [data] are
    the bytes at the pointer the transport passes and [length] is the
    size of the message. *)
Definition onMessage_data (mpc : MPC) (data : string) (length : Z)
  : outcome D * MPC :=
  let sdata := received_text data length in
  onMessage mpc sdata.

End Program.

(** ** Two interpretations of [double] *)

(** Exact arithmetic: [double] read as a real number. *)
#[export] Instance RealOps : DoubleOps R := {|
  dadd := Rplus;
  dsub := Rminus;
  dmul := Rmult;
  ddiv := Rdiv;
  dneg := Ropp;
  dlit := fun m e => (IZR m / 10 ^ e)%R;
  M_PI := PI;
  dsin := sin;
  dcos := cos;
  datan := atan;
  dpow := pow
|}.

(** An integer of magnitude below [2^53] as a binary64 number. *)
Definition binary64_of_Z (z : Z) : float :=
  match z with
  | Zneg p => PrimFloat.opp (PrimFloat.of_uint63 (Uint63.of_Z (Zpos p)))
  | _ => PrimFloat.of_uint63 (Uint63.of_Z z)
  end.

(** IEEE-754 binary64 arithmetic, given the four [<math.h>] functions.
    Both parts of a literal are exact here, so the correctly rounded
    quotient is the [double] a compiler reads the literal as; [M_PI] is
    the nearest [double] to pi. *)
Definition IEEEOps (fsin fcos fatan : float -> float)
    (fpow : float -> nat -> float) : DoubleOps float := {|
  dadd := PrimFloat.add;
  dsub := PrimFloat.sub;
  dmul := PrimFloat.mul;
  ddiv := PrimFloat.div;
  dneg := PrimFloat.opp;
  dlit := fun m e => PrimFloat.div (binary64_of_Z m) (binary64_of_Z (10 ^ Z.of_nat e));
  M_PI := 0x1.921fb54442d18p+1%float;
  dsin := fsin;
  dcos := fcos;
  datan := fatan;
  dpow := fpow
|}.

(** ** Closed forms used in the statements *)

Section ClosedForms.

Context {D : Type} {ops : DoubleOps D} {ext : Externals D}.

Local Open Scope double_scope.

(** The pose and speed the handler works with after l.111-120. *)
Definition compensated (t : telemetry D) : D * D * D * D :=
  predict (t_x t) (t_y t) (t_psi t)
          (t_speed t * dlit 44704 5) (- t_steering_angle t) (t_throttle t).

(** The way points in car co-ordinates, for the pose [(px, py, psi)]. *)
Definition car_points (psi px py : D) (ptsx ptsy : list D) : list (D * D) :=
  map (fun g => global2car psi px py (fst g) (snd g)) (combine ptsx ptsy).

(** The coefficients the QR solve returns for the cubic through [pts]. *)
Definition cubic_through (pts : list (D * D)) : list D :=
  map (householderQr_solve (map (design_row 3) (map fst pts)) (map snd pts))
      (seq 0 4).

(** The arguments [mpc.Solve] is called with: the state
    [0, 0, 0, v, cte, epsi] and the coefficients. *)
Definition solver_arguments (t : telemetry D) : list D * list D :=
  let '(px, py, psi, v) := compensated t in
  let coeffs := cubic_through (car_points psi px py (t_ptsx t) (t_ptsy t)) in
  ([dlit 0 0; dlit 0 0; dlit 0 0; v;
    polyeval coeffs (dlit 0 0); - datan (nth 1 coeffs (dlit 0 0))],
   coeffs).

(** The telemetry record of a cycle that reaches the solver: at least
    four way points, and a [ptsy] that is not shorter than [ptsx]. *)
Definition enough_waypoints (t : telemetry D) : Prop :=
  (4 <= List.length (t_ptsx t) <= List.length (t_ptsy t))%nat.

(** Two telemetry records that differ at most in the speed field. *)
Definition same_but_speed (t1 t2 : telemetry D) : Prop :=
  t_ptsx t1 = t_ptsx t2 /\ t_ptsy t1 = t_ptsy t2 /\
  t_x t1 = t_x t2 /\ t_y t1 = t_y t2 /\ t_psi t1 = t_psi t2 /\
  t_steering_angle t1 = t_steering_angle t2 /\
  t_throttle t1 = t_throttle t2.

(** What the design document asks of a cycle that cannot compute a
    command: nothing is sent, or zero steering and zero throttle are
    sent; in both cases the process goes on. *)
Definition degrades_safely (o : outcome D) : Prop :=
  o = NoReply \/
  exists c, o = Sent (Steer c) /\
            msg_steering_angle c = dlit 0 0 /\ msg_throttle c = dlit 0 0.

End ClosedForms.

(** ** Test doubles for the external code *)

(** A solver that answers its [k]-th call with [outputs k], a QR solve
    that returns zeros, and a JSON layer whose documents are telemetry
    records decoded by [decode]. *)
Definition scripted {D : Type} {ops : DoubleOps D}
    (outputs : nat -> solve_result D)
    (decode : string -> option (telemetry D)) : Externals D := {|
  householderQr_solve := fun _ _ _ => dlit 0 0;
  MPC := nat;
  Solve := fun calls _ _ => (outputs calls, S calls);
  json := telemetry D;
  json_parse := decode;
  json_event := fun _ => Some "telemetry";
  json_telemetry := fun t => Some t
|}.

Definition no_json {D : Type} : string -> option (telemetry D) :=
  fun _ => None.

Definition solved {D : Type} (ok : bool) (vals : list D) : solve_result D :=
  {| converged := ok; values := vals |}.

(** A solver that returns an empty vector; for cycles that stop before the
    solve, or whose solve does not matter. *)
Definition no_solver {D : Type} {ops : DoubleOps D} : Externals D :=
  scripted (fun _ => solved true []) no_json.

(** A solver that converges and returns [vals] at every call. *)
Definition answering {D : Type} {ops : DoubleOps D} (vals : list D)
  : Externals D :=
  scripted (fun _ => solved true vals) no_json.

(** A solver that converges with [first] at its first call and fails to
    converge, returning [later], at every later call. *)
Definition failing_later {D : Type} {ops : DoubleOps D} (first later : list D)
  : Externals D :=
  scripted (fun calls => match calls with
                         | O => solved true first
                         | S _ => solved false later
                         end) no_json.

(** Binary64 arithmetic with a stand-in for [<math.h>] that is exact at 0
    ([sin 0 = 0], [cos 0 = 1], [atan 0 = 0], [pow(x, 0) = 1]); it serves
    to run statements proved for every arithmetic on IEEE values. *)
#[export] Instance binary64 : DoubleOps float :=
  IEEEOps (fun a => a) (fun _ => 1%float) (fun a => a)
          (fun a i => Nat.iter i (PrimFloat.mul a) 1%float).

(** Way points on the global x-axis, the vehicle at the origin heading
    along it. *)
Definition straight_road {D : Type} {ops : DoubleOps D}
    (waypoints : nat) (speed : D) : telemetry D := {|
  t_ptsx := map (fun k => dlit (Z.of_nat k) 0) (seq 0 waypoints);
  t_ptsy := map (fun _ => dlit 0 0) (seq 0 waypoints);
  t_x := dlit 0 0;
  t_y := dlit 0 0;
  t_psi := dlit 0 0;
  t_speed := speed;
  t_steering_angle := dlit 0 0;
  t_throttle := dlit 0 0
|}.


(** A JSON layer that accepts every text and reports the event [event];
    the QR solve returns zeros and the solver an empty vector. *)
Definition event_only {D : Type} {ops : DoubleOps D} (event : string)
  : Externals D := {|
  householderQr_solve := fun _ _ _ => dlit 0 0;
  MPC := nat;
  Solve := fun calls _ _ => (solved true [], S calls);
  json := unit;
  json_parse := fun _ => Some tt;
  json_event := fun _ => Some event;
  json_telemetry := fun _ => None
|}.

(** * Properties *)

(** ** The stages of one telemetry cycle, for any arithmetic *)

Section Stages.

Context {D : Type} {ops : DoubleOps D} {ext : Externals D}.

Local Open Scope double_scope.

Lemma car_points_length (psi px py : D) (ptsx ptsy : list D) :
  (List.length ptsx <= List.length ptsy)%nat ->
  List.length (car_points psi px py ptsx ptsy) = List.length ptsx.
Proof.
  intros Hle. unfold car_points.
  rewrite length_map, length_combine. lia.
Qed.

(** The transform loop succeeds exactly when [ptsy] is long enough, and
    then yields the car co-ordinates of every way point, in order. *)
Lemma transform_waypoints_ok (psi px py : D) (ptsx ptsy : list D) :
  (List.length ptsx <= List.length ptsy)%nat ->
  transform_waypoints psi px py ptsx ptsy =
    Ok (map fst (car_points psi px py ptsx ptsy),
        map snd (car_points psi px py ptsx ptsy)).
Proof.
  revert ptsy. induction ptsx as [|xg ptsx IH]; intros ptsy Hle.
  - reflexivity.
  - destruct ptsy as [|yg ptsy]; [simpl in Hle; lia|].
    simpl in Hle. cbn [transform_waypoints].
    rewrite IH by lia. reflexivity.
Qed.

Lemma transform_waypoints_short (psi px py : D) (ptsx ptsy : list D) :
  (List.length ptsy < List.length ptsx)%nat ->
  transform_waypoints psi px py ptsx ptsy = Fault UndefinedBehaviour.
Proof.
  revert ptsy. induction ptsx as [|xg ptsx IH]; intros ptsy Hlt.
  - simpl in Hlt. lia.
  - destruct ptsy as [|yg ptsy]; [reflexivity|].
    simpl in Hlt. cbn [transform_waypoints].
    rewrite IH by lia. reflexivity.
Qed.

(** [polyfit] aborts on its second assertion when there are fewer points
    than coefficients. *)
Lemma polyfit_too_few (xvals yvals : list D) (order : Z) :
  (Z.of_nat (List.length xvals) < order + 1)%Z ->
  polyfit xvals yvals order = Fault AssertionFailed.
Proof.
  intros Hfew. unfold polyfit.
  destruct (Z.of_nat (List.length xvals) =? Z.of_nat (List.length yvals))%Z;
    [|reflexivity].
  replace (order <=? Z.of_nat (List.length xvals) - 1)%Z with false
    by (symmetry; apply Z.leb_gt; lia).
  rewrite andb_false_r. reflexivity.
Qed.

Lemma polyfit_cubic (pts : list (D * D)) :
  (4 <= List.length pts)%nat ->
  polyfit (map fst pts) (map snd pts) 3 = Ok (cubic_through pts).
Proof.
  intros Hlen. unfold polyfit. rewrite !length_map, Z.eqb_refl.
  replace (3 <=? Z.of_nat (List.length pts) - 1)%Z with true
    by (symmetry; apply Z.leb_le; lia).
  reflexivity.
Qed.

(** A cycle with enough way points reaches the solver, with these
    arguments. *)
Lemma solver_input_ok (t : telemetry D) :
  enough_waypoints t -> solver_input t = Ok (solver_arguments t).
Proof.
  intros [H4 Hle]. unfold solver_input, solver_arguments, compensated.
  destruct (predict _ _ _ _ _ _) as [[[px py] psi] v].
  rewrite transform_waypoints_ok by assumption. cbn [bind].
  rewrite polyfit_cubic by (rewrite car_points_length; assumption).
  reflexivity.
Qed.

Lemma solver_input_too_few (t : telemetry D) :
  (List.length (t_ptsx t) < 4)%nat ->
  (List.length (t_ptsx t) <= List.length (t_ptsy t))%nat ->
  solver_input t = Fault AssertionFailed.
Proof.
  intros Hfew Hle. unfold solver_input.
  destruct (predict _ _ _ _ _ _) as [[[px py] psi] v].
  rewrite transform_waypoints_ok by assumption. cbn [bind].
  rewrite polyfit_too_few; [reflexivity|].
  rewrite length_map, car_points_length by assumption. lia.
Qed.

(** With at least two values from the solver the message is built, from
    those values alone. *)
Lemma steer_message_ok (coeffs : list D) (r0 r1 : D) (rest : list D) :
  exists c,
    steer_message coeffs (r0 :: r1 :: rest) = Ok c /\
    msg_steering_angle c = - r0 / deg2rad (dlit 25 0) /\
    msg_throttle c = r1.
Proof. eexists. split; [reflexivity|]. split; reflexivity. Qed.

(** A cycle with enough way points and at least two values from the
    solver sends the steer message computed from those values. *)
Lemma telemetry_cycle_ok (mpc : MPC) (t : telemetry D)
      (r0 r1 : D) (rest : list D) :
  enough_waypoints t ->
  values (fst (Solve mpc (fst (solver_arguments t)) (snd (solver_arguments t))))
    = r0 :: r1 :: rest ->
  exists c,
    telemetry_cycle mpc t =
      (Sent (Steer c),
       snd (Solve mpc (fst (solver_arguments t)) (snd (solver_arguments t)))) /\
    msg_steering_angle c = - r0 / deg2rad (dlit 25 0) /\
    msg_throttle c = r1.
Proof.
  intros Hin Hvals. unfold telemetry_cycle.
  rewrite (solver_input_ok t Hin).
  destruct (solver_arguments t) as [state coeffs]. cbn [fst snd] in *.
  destruct (Solve mpc state coeffs) as [solution mpc']. cbn [fst snd] in *.
  rewrite Hvals.
  destruct (steer_message_ok coeffs r0 r1 rest) as (c & Hc & Hs & Ht).
  exists c. rewrite Hc. auto.
Qed.

End Stages.

(** ** Too few way points (C1) *)

Section TooFewWaypoints.

Context {D : Type} {ops : DoubleOps D} {ext : Externals D}.

(** C1, as the code has it: for every telemetry record with fewer than
    four way points (and a [ptsy] at least as long as [ptsx]), the second
    assertion of [polyfit] fails; the handler sends nothing, neither a
    command nor a safe default, and the process is aborted. *)
Theorem too_few_waypoints_abort (mpc : MPC) (t : telemetry D) :
  (List.length (t_ptsx t) < 4)%nat ->
  (List.length (t_ptsx t) <= List.length (t_ptsy t))%nat ->
  telemetry_cycle mpc t = (Crashed AssertionFailed, mpc).
Proof.
  intros Hfew Hle. unfold telemetry_cycle.
  rewrite solver_input_too_few by assumption. reflexivity.
Qed.

End TooFewWaypoints.

(** Three way points on a straight road: the cycle aborts. *)
Lemma too_few_waypoints_abort_witness :
  telemetry_cycle (ext := no_solver)
                  0%nat (straight_road (D := R) 3 10%R)
  = (Crashed AssertionFailed, 0%nat).
Proof.
  apply (too_few_waypoints_abort
           (ext := no_solver)
           0%nat (straight_road (D := R) 3 10%R)); simpl; lia.
Defined.

(** C1 as the design document states it fails: with three way points the
    outcome is neither silence nor the zero command. *)
Lemma three_waypoints_not_safe :
  (List.length (t_ptsx (straight_road (D := R) 3 10%R)) < 4)%nat /\
  ~ degrades_safely
      (fst (telemetry_cycle (ext := no_solver)
                            0%nat (straight_road (D := R) 3 10%R))).
Proof.
  split; [simpl; lia|].
  unfold telemetry_cycle.
  rewrite solver_input_too_few by (simpl; lia).
  intros [H | (c & H & _)]; discriminate H.
Qed.

(** ** The frame transform (C4, C5) *)

Section FrameTransform.

Context {D : Type} {ops : DoubleOps D}.

Local Open Scope double_scope.

(** Whatever the arithmetic, the two results are these two expressions
    in the machine operations: no small-angle or other shortcut. *)
Lemma global2car_unfold (psi px py x_global y_global : D) :
  global2car psi px py x_global y_global =
    ((x_global - px) * dcos psi + (y_global - py) * dsin psi,
     - (x_global - px) * dsin psi + (y_global - py) * dcos psi).
Proof. reflexivity. Qed.

End FrameTransform.

Section FrameTransformReal.

Local Open Scope R_scope.

(** C4: for every pose [(x0, y0, psi)] and every point [(x, y)], read
    over the real numbers, [global2car] returns exactly
    [(dx cos psi + dy sin psi, - dx sin psi + dy cos psi)] with
    [dx = x - x0] and [dy = y - y0]. *)
Theorem global2car_rotation (psi x0 y0 x y : R) :
  global2car psi x0 y0 x y =
    ((x - x0) * cos psi + (y - y0) * sin psi,
     - ((x - x0) * sin psi) + (y - y0) * cos psi).
Proof.
  rewrite global2car_unfold. cbn [dadd dsub dmul dneg dsin dcos RealOps].
  f_equal. ring.
Qed.

(** C5: the transform preserves the distance to the vehicle,
    [local_x^2 + local_y^2 = dx^2 + dy^2] and hence the Euclidean norm,
    and it sends the vehicle's own position to [(0, 0)]. *)
Theorem global2car_isometry (psi px py x y : R) :
  Rsqr (fst (global2car psi px py x y)) + Rsqr (snd (global2car psi px py x y))
    = Rsqr (x - px) + Rsqr (y - py) /\
  R_sqrt.sqrt (Rsqr (fst (global2car psi px py x y))
               + Rsqr (snd (global2car psi px py x y)))
    = R_sqrt.sqrt (Rsqr (x - px) + Rsqr (y - py)) /\
  global2car psi px py px py = (0, 0).
Proof.
  assert (Hsq : Rsqr (fst (global2car psi px py x y))
                + Rsqr (snd (global2car psi px py x y))
                = Rsqr (x - px) + Rsqr (y - py)).
  { rewrite global2car_unfold.
    cbn [fst snd dadd dsub dmul dneg dsin dcos RealOps]. unfold Rsqr.
    pose proof (sin2_cos2 psi) as Hone. unfold Rsqr in Hone.
    set (s := sin psi) in *. set (c := cos psi) in *.
    replace ((x - px) * (x - px) + (y - py) * (y - py))
      with (((x - px) * (x - px) + (y - py) * (y - py)) * (s * s + c * c))
      by (rewrite Hone; ring).
    ring. }
  split; [exact Hsq|]. split; [rewrite Hsq; reflexivity|].
  rewrite global2car_unfold. cbn [dadd dsub dmul dneg dsin dcos RealOps].
  f_equal; ring.
Qed.

End FrameTransformReal.

(** ** The error terms (C6) *)

Section ErrorTerms.

Context {ext : Externals R}.

Local Open Scope R_scope.

Lemma real_lit (m : Z) (e : nat) : dlit m e = IZR m / 10 ^ e.
Proof. reflexivity. Qed.

Lemma real_zero : dlit 0 0 = 0.
Proof. rewrite real_lit. simpl. field. Qed.



End ErrorTerms.

Section FittedCoefficients.

Context {D : Type} {ops : DoubleOps D} {ext : Externals D}.

Local Open Scope double_scope.


End FittedCoefficients.

(** ** IEEE doubles at zero *)

Section IEEEAtZero.

Local Open Scope Z_scope.











End IEEEAtZero.




(** ** Latency compensation (C7) *)

Section LatencyCompensation.

Context {ext : Externals R}.

Local Open Scope R_scope.

Lemma real_latency : latency = 1 / 10.
Proof. unfold latency. rewrite real_lit. simpl. field. Qed.

Lemma real_Lf : Lf = 267 / 100.
Proof. unfold Lf. rewrite real_lit. simpl. field. Qed.

(** The kinematic update, in the form the design document writes it. *)
Lemma predict_bicycle (x y psi v delta a : R) :
  predict x y psi v delta a =
    (x + v * cos psi * (1 / 10),
     y + v * sin psi * (1 / 10),
     psi + v / (267 / 100) * delta * (1 / 10),
     v + a * (1 / 10)).
Proof.
  unfold predict. rewrite real_latency, real_Lf.
  cbn [dadd dmul ddiv dsin dcos RealOps].
  replace (v * delta / (267 / 100)) with (v / (267 / 100) * delta) by field.
  reflexivity.
Qed.

(** C7: with [dt = 0.1] and [Lf = 2.67] the compensator maps
    [(x, y, psi, v)] and [(delta, a)] to
    [x + v cos(psi) dt], [y + v sin(psi) dt], [psi + (v / Lf) delta dt],
    [v + a dt]; and a cycle with enough way points transforms the way
    points with the compensated pose and calls the solver with the
    compensated speed. *)
Theorem latency_compensation (t : telemetry R) :
  enough_waypoints t ->
  (forall x y psi v delta a,
      predict x y psi v delta a =
        (x + v * cos psi * (1 / 10),
         y + v * sin psi * (1 / 10),
         psi + v / (267 / 100) * delta * (1 / 10),
         v + a * (1 / 10))) /\
  (forall x' y' psi' v',
      predict (t_x t) (t_y t) (t_psi t)
              (t_speed t * (44704 / 100000)) (- t_steering_angle t)
              (t_throttle t) = (x', y', psi', v') ->
      exists cte epsi,
        solver_input t =
          Ok ([0; 0; 0; v'; cte; epsi],
              cubic_through (car_points psi' x' y' (t_ptsx t) (t_ptsy t)))).
Proof.
  intros Hin. split; [exact predict_bicycle|].
  intros x' y' psi' v' Hp.
  rewrite (solver_input_ok t Hin). unfold solver_arguments, compensated.
  replace (dmul (t_speed t) (dlit 44704 5))
    with (t_speed t * (44704 / 100000))
    by (rewrite real_lit; cbn [dmul RealOps]; simpl; field).
  change (dneg (t_steering_angle t)) with (- t_steering_angle t).
  rewrite Hp, real_zero. eexists. eexists. reflexivity.
Qed.

End LatencyCompensation.

(** Four way points on a straight road, at 10 mph. *)
Lemma latency_compensation_witness :
  (forall x y psi v delta a : R,
      predict x y psi v delta a =
        (x + v * cos psi * (1 / 10),
         y + v * sin psi * (1 / 10),
         psi + v / (267 / 100) * delta * (1 / 10),
         v + a * (1 / 10)))%R /\
  (forall x' y' psi' v' : R,
      predict (t_x (straight_road 4 10%R)) (t_y (straight_road 4 10%R))
              (t_psi (straight_road 4 10%R))
              (t_speed (straight_road 4 10%R) * (44704 / 100000))%R
              (- t_steering_angle (straight_road 4 10%R))%R
              (t_throttle (straight_road 4 10%R)) = (x', y', psi', v') ->
      exists cte epsi,
        solver_input (ext := no_solver)
                     (straight_road 4 10%R) =
          Ok ([0; 0; 0; v'; cte; epsi]%R,
              cubic_through (ext := no_solver)
                            (car_points psi' x' y'
                               (t_ptsx (straight_road 4 10%R))
                               (t_ptsy (straight_road 4 10%R))))).
Proof.
  apply (latency_compensation
           (ext := no_solver)
           (straight_road 4 10%R)).
  unfold enough_waypoints. simpl. lia.
Defined.

(** ** Sign and unit conventions (C8, C9) *)

Section SignsAndUnits.

Context {D : Type} {ops : DoubleOps D} {ext : Externals D}.

Local Open Scope double_scope.

Lemma solver_input_speed (t t' : telemetry D) :
  same_but_speed t t' ->
  t_speed t' * dlit 44704 5 = t_speed t * dlit 44704 5 ->
  solver_input t' = solver_input t.
Proof.
  intros (Hx & Hy & Hpx & Hpy & Hpsi & Hd & Ha) Hv.
  unfold solver_input.
  rewrite Hv, <- Hx, <- Hy, <- Hpx, <- Hpy, <- Hpsi, <- Hd, <- Ha.
  reflexivity.
Qed.

(** C8: in every cycle with enough way points the latency compensator
    receives the negated telemetry steering angle; the steering sent is
    the negated first value of the solver divided by [deg2rad(25)], that
    is by [25 * M_PI / 180]; the throttle sent is the solver's second
    value, unchanged. *)
Theorem steering_sign_convention (mpc : MPC) (t : telemetry D) :
  enough_waypoints t ->
  exists px py psi v state coeffs,
    predict (t_x t) (t_y t) (t_psi t) (t_speed t * dlit 44704 5)
            (- t_steering_angle t) (t_throttle t) = (px, py, psi, v) /\
    psi = t_psi t
          + t_speed t * dlit 44704 5 * - t_steering_angle t / Lf * latency /\
    coeffs = cubic_through (car_points psi px py (t_ptsx t) (t_ptsy t)) /\
    solver_input t = Ok (state, coeffs) /\
    forall r0 r1 rest,
      values (fst (Solve mpc state coeffs)) = r0 :: r1 :: rest ->
      exists c,
        fst (telemetry_cycle mpc t) = Sent (Steer c) /\
        msg_steering_angle c = - r0 / (dlit 25 0 * M_PI / dlit 180 0) /\
        msg_throttle c = r1.
Proof.
  intros Hin.
  pose proof (solver_input_ok t Hin) as Hok.
  pose proof (telemetry_cycle_ok mpc t) as Hcycle.
  unfold solver_arguments, compensated in Hok, Hcycle.
  destruct (predict _ _ _ _ _ _) as [[[px py] psi] v] eqn:Hp.
  exists px, py, psi, v. eexists. eexists.
  split; [reflexivity|]. split.
  { unfold predict in Hp. injection Hp as _ _ Hpsi _. symmetry. exact Hpsi. }
  split; [reflexivity|]. split; [exact Hok|].
  intros r0 r1 rest Hvals. cbn [fst snd] in Hcycle.
  destruct (Hcycle r0 r1 rest Hin Hvals) as (c & Hc & Hs & Ht).
  exists c. rewrite Hc. auto.
Qed.

(** C9: in every cycle with enough way points the speed enters the
    latency compensation, and through it the state given to the solver,
    as [speed * 0.44704]; and two telemetry records that differ only in
    speed fields with the same product [speed * 0.44704] have the same
    outcome. *)
Theorem speed_in_metres_per_second (mpc : MPC) (t : telemetry D) :
  enough_waypoints t ->
  (exists px py psi cte epsi,
      px = t_x t + t_speed t * dlit 44704 5 * dcos (t_psi t) * latency /\
      py = t_y t + t_speed t * dlit 44704 5 * dsin (t_psi t) * latency /\
      psi = t_psi t
            + t_speed t * dlit 44704 5 * - t_steering_angle t / Lf * latency /\
      solver_input t =
        Ok ([dlit 0 0; dlit 0 0; dlit 0 0;
             t_speed t * dlit 44704 5 + t_throttle t * latency; cte; epsi],
            cubic_through (car_points psi px py (t_ptsx t) (t_ptsy t)))) /\
  (forall t',
      same_but_speed t t' ->
      t_speed t' * dlit 44704 5 = t_speed t * dlit 44704 5 ->
      telemetry_cycle mpc t' = telemetry_cycle mpc t).
Proof.
  intros Hin. split.
  - rewrite (solver_input_ok t Hin).
    unfold solver_arguments, compensated, predict.
    do 5 eexists. repeat (split; [reflexivity|]). reflexivity.
  - intros t' Hsame Hv. unfold telemetry_cycle.
    rewrite (solver_input_speed t t' Hsame Hv). reflexivity.
Qed.

End SignsAndUnits.

(** Four way points on a straight road; the solver returns [0.1, 0.5]. *)
Lemma steering_sign_convention_witness :
  exists c : command R,
    fst (telemetry_cycle (ext := answering [dlit 1 1; dlit 5 1])
                         0%nat (straight_road 4 10%R)) = Sent (Steer c) /\
    msg_steering_angle c = (- dlit 1 1 / (dlit 25 0 * M_PI / dlit 180 0))%D /\
    msg_throttle c = dlit 5 1.
Proof.
  destruct (steering_sign_convention
              (ext := answering [dlit 1 1; dlit 5 1])
              0%nat (straight_road 4 10%R))
    as (px & py & psi & v & state & coeffs & _ & _ & _ & _ & Hcmd).
  { unfold enough_waypoints. simpl. lia. }
  apply (Hcmd (dlit 1 1) (dlit 5 1) []). reflexivity.
Defined.

(** On binary64 the speeds [0] and [2^-1074] have the same product with
    [0.44704], and the two cycles have the same outcome. *)
Lemma speed_in_metres_per_second_witness :
  telemetry_cycle (ext := answering [dlit 1 1; dlit 5 1])
                  0%nat (straight_road 4 0x1p-1074%float)
  = telemetry_cycle (ext := answering [dlit 1 1; dlit 5 1])
                    0%nat (straight_road 4 0%float).
Proof.
  destruct (speed_in_metres_per_second
              (ext := answering [dlit 1 1; dlit 5 1])
              0%nat (straight_road 4 0%float)) as [_ Hsame].
  { unfold enough_waypoints. simpl. lia. }
  apply Hsame.
  - repeat split; reflexivity.
  - vm_compute. reflexivity.
Defined.

(** ** What is sent after the solve (C2, C3) *)

Section AfterTheSolve.

Context {D : Type} {ops : DoubleOps D} {ext : Externals D}.

Local Open Scope double_scope.

(** C2, as the code has it: in every cycle with enough way points whose
    solve does not converge and returns at least two values, the handler
    sends the command computed from that vector (steering
    [- result[0] / deg2rad(25)], throttle [result[1]]) as it does after a
    converged solve; it keeps no previous command and checks no value. *)
Theorem unconverged_solve_is_sent (mpc : MPC) (t : telemetry D) :
  enough_waypoints t ->
  exists state coeffs,
    solver_input t = Ok (state, coeffs) /\
    forall r0 r1 rest,
      converged (fst (Solve mpc state coeffs)) = false ->
      values (fst (Solve mpc state coeffs)) = r0 :: r1 :: rest ->
      exists c,
        telemetry_cycle mpc t =
          (Sent (Steer c), snd (Solve mpc state coeffs)) /\
        msg_steering_angle c = - r0 / deg2rad (dlit 25 0) /\
        msg_throttle c = r1.
Proof.
  intros Hin.
  exists (fst (solver_arguments t)), (snd (solver_arguments t)).
  split.
  - rewrite (solver_input_ok t Hin). destruct (solver_arguments t).
    reflexivity.
  - intros r0 r1 rest _ Hvals.
    exact (telemetry_cycle_ok mpc t r0 r1 rest Hin Hvals).
Qed.

End AfterTheSolve.

(** The second cycle on a straight road: the solve fails and returns
    [0.2, 0.3]; that throttle is sent. *)
Lemma unconverged_solve_is_sent_witness :
  exists c : command R,
    fst (telemetry_cycle
           (ext := failing_later [dlit 1 1; dlit 5 1] [dlit 2 1; dlit 3 1])
           1%nat (straight_road 4 10%R)) = Sent (Steer c) /\
    msg_throttle c = dlit 3 1.
Proof.
  destruct (unconverged_solve_is_sent
              (ext := failing_later [dlit 1 1; dlit 5 1] [dlit 2 1; dlit 3 1])
              1%nat (straight_road 4 10%R))
    as (state & coeffs & _ & Hsent).
  { unfold enough_waypoints. simpl. lia. }
  destruct (Hsent (dlit 2 1) (dlit 3 1) [] eq_refl eq_refl)
    as (c & Hc & _ & Ht).
  exists c. rewrite Hc. split; [reflexivity | exact Ht].
Defined.

(** C2 as the design document states it fails: the first solve converges
    and throttle 0.5 is sent; the second solve does not converge and
    returns throttle 0.3; the handler sends 0.3, not the command it sent
    before. *)
Lemma failed_solve_is_not_held :
  exists c0 c1 : command R,
    telemetry_cycle
      (ext := failing_later [dlit 1 1; dlit 5 1] [dlit 2 1; dlit 3 1])
      0%nat (straight_road 4 10%R) = (Sent (Steer c0), 1%nat) /\
    converged
      (fst (Solve (Externals :=
                     failing_later [dlit 1 1; dlit 5 1] [dlit 2 1; dlit 3 1])
                  1%nat
                  (fst (solver_arguments
                          (ext := failing_later [dlit 1 1; dlit 5 1]
                                                [dlit 2 1; dlit 3 1])
                          (straight_road 4 10%R)))
                  (snd (solver_arguments
                          (ext := failing_later [dlit 1 1; dlit 5 1]
                                                [dlit 2 1; dlit 3 1])
                          (straight_road 4 10%R))))) = false /\
    telemetry_cycle
      (ext := failing_later [dlit 1 1; dlit 5 1] [dlit 2 1; dlit 3 1])
      1%nat (straight_road 4 10%R) = (Sent (Steer c1), 2%nat) /\
    c1 <> c0.
Proof.
  assert (Hin : enough_waypoints (straight_road 4 10%R))
    by (unfold enough_waypoints; simpl; lia).
  destruct (telemetry_cycle_ok
              (ext := failing_later [dlit 1 1; dlit 5 1] [dlit 2 1; dlit 3 1])
              0%nat (straight_road 4 10%R) (dlit 1 1) (dlit 5 1) [] Hin eq_refl)
    as (c0 & Hc0 & _ & Ht0).
  destruct (telemetry_cycle_ok
              (ext := failing_later [dlit 1 1; dlit 5 1] [dlit 2 1; dlit 3 1])
              1%nat (straight_road 4 10%R) (dlit 2 1) (dlit 3 1) [] Hin eq_refl)
    as (c1 & Hc1 & _ & Ht1).
  exists c0, c1. split; [exact Hc0|]. split; [reflexivity|].
  split; [exact Hc1|].
  intros Heq. rewrite Heq, Ht0 in Ht1. rewrite !real_lit in Ht1.
  simpl in Ht1. lra.
Qed.

(** On binary64, a solver that returns NaN makes the handler send NaN. *)
Lemma nan_is_sent (coeffs : list float) :
  exists c : command float,
    steer_message coeffs [nan; nan] = Ok c /\
    is_nan (msg_steering_angle c) = true /\
    is_nan (msg_throttle c) = true.
Proof. eexists. split; [reflexivity|]. split; reflexivity. Qed.

Section SentRange.

Context {ext : Externals R}.

Local Open Scope R_scope.

Lemma real_deg2rad_25 : deg2rad (dlit 25 0) = 25 * PI / 180.
Proof.
  unfold deg2rad, pi. rewrite !real_lit.
  cbn [dmul ddiv M_PI RealOps]. simpl. field.
Qed.

Lemma scaled_range (r0 k : R) :
  0 < k -> (-1 <= - r0 / k <= 1 <-> - k <= r0 <= k).
Proof.
  intros Hk. assert (Heq : - r0 / k * k = - r0) by (field; lra).
  split; intros [H1 H2]; split; nra.
Qed.

(** C3, as the code has it: after a converged solve that returns at
    least two values, the handler sends steering
    [- result[0] / deg2rad(25)] and throttle [result[1]] without
    clamping; the command lies within [-1, 1] exactly when the solver's
    steering lies within [-deg2rad(25), deg2rad(25)] and its throttle
    within [-1, 1]. *)
Theorem sent_range_follows_solver (mpc : MPC) (t : telemetry R) :
  enough_waypoints t ->
  exists state coeffs,
    solver_input t = Ok (state, coeffs) /\
    forall r0 r1 rest,
      converged (fst (Solve mpc state coeffs)) = true ->
      values (fst (Solve mpc state coeffs)) = r0 :: r1 :: rest ->
      exists c,
        fst (telemetry_cycle mpc t) = Sent (Steer c) /\
        msg_steering_angle c = - r0 / (25 * PI / 180) /\
        msg_throttle c = r1 /\
        ((-1 <= msg_steering_angle c <= 1 /\ -1 <= msg_throttle c <= 1) <->
         (- (25 * PI / 180) <= r0 <= 25 * PI / 180 /\ -1 <= r1 <= 1)).
Proof.
  intros Hin.
  exists (fst (solver_arguments t)), (snd (solver_arguments t)).
  split.
  - rewrite (solver_input_ok t Hin). destruct (solver_arguments t).
    reflexivity.
  - intros r0 r1 rest _ Hvals.
    destruct (telemetry_cycle_ok mpc t r0 r1 rest Hin Hvals)
      as (c & Hc & Hs & Ht).
    exists c. rewrite Hc. split; [reflexivity|].
    rewrite real_deg2rad_25 in Hs. change (dneg r0) with (- r0) in Hs.
    change (ddiv (- r0) (25 * PI / 180)) with (- r0 / (25 * PI / 180)) in Hs.
    split; [exact Hs|]. split; [exact Ht|].
    rewrite Hs, Ht.
    assert (Hk : 0 < 25 * PI / 180) by (pose proof PI_RGT_0; lra).
    pose proof (scaled_range r0 _ Hk) as Hiff. tauto.
Qed.

End SentRange.

(** Four way points on a straight road; the solver converges and returns
    [0.1, 0.5]. *)
Lemma sent_range_follows_solver_witness :
  exists c : command R,
    fst (telemetry_cycle (ext := answering [dlit 1 1; dlit 5 1])
                         0%nat (straight_road 4 10%R)) = Sent (Steer c) /\
    msg_throttle c = dlit 5 1.
Proof.
  destruct (sent_range_follows_solver
              (ext := answering [dlit 1 1; dlit 5 1])
              0%nat (straight_road 4 10%R))
    as (state & coeffs & _ & Hsent).
  { unfold enough_waypoints. simpl. lia. }
  destruct (Hsent (dlit 1 1) (dlit 5 1) [] eq_refl eq_refl)
    as (c & Hc & _ & Ht & _).
  exists c. split; [exact Hc | exact Ht].
Defined.

(** C3 as the design document states it fails: a converged solve that
    returns steering 1 rad and throttle 5 makes the handler send throttle
    5 and a steering command below -1. *)
Lemma converged_solve_is_not_clamped :
  converged
    (fst (Solve (Externals := answering [dlit 1 0; dlit 5 0])
                0%nat
                (fst (solver_arguments (ext := answering [dlit 1 0; dlit 5 0])
                                       (straight_road 4 10%R)))
                (snd (solver_arguments (ext := answering [dlit 1 0; dlit 5 0])
                                       (straight_road 4 10%R))))) = true /\
  exists c : command R,
    fst (telemetry_cycle (ext := answering [dlit 1 0; dlit 5 0])
                         0%nat (straight_road 4 10%R)) = Sent (Steer c) /\
    ~ (msg_throttle c <= 1)%R /\
    ~ (-1 <= msg_steering_angle c)%R.
Proof.
  split; [reflexivity|].
  assert (Hin : enough_waypoints (straight_road 4 10%R))
    by (unfold enough_waypoints; simpl; lia).
  destruct (telemetry_cycle_ok
              (ext := answering [dlit 1 0; dlit 5 0])
              0%nat (straight_road 4 10%R) (dlit 1 0) (dlit 5 0) [] Hin eq_refl)
    as (c & Hc & Hs & Ht).
  exists c. rewrite Hc. split; [reflexivity|].
  rewrite Hs, Ht, real_deg2rad_25, !real_lit.
  cbn [dneg ddiv RealOps]. simpl.
  pose proof PI_RGT_0 as Hpos. pose proof PI_4 as Hfour.
  split; [lra|].
  intros Hge.
  assert (Hk : (0 < 25 * PI / 180 < 1)%R) by (split; lra).
  assert (Heq : (- (1 / 1) / (25 * PI / 180) * (25 * PI / 180) = -1)%R)
    by (field; lra).
  nra.
Qed.

(** ** The payload extractor (C10) *)

Example hasData_telemetry :
  hasData "42[telemetry,{x:1}]" = "[telemetry,{x:1}]".
Proof. vm_compute. reflexivity. Qed.

Example hasData_with_null : hasData "42[null,{x:1}]" = EmptyString.
Proof. vm_compute. reflexivity. Qed.

Example hasData_last_closing : hasData "42[a}]b}]c" = "[a}]b}]".
Proof. vm_compute. reflexivity. Qed.

Example hasData_no_bracket : hasData "42{x:1}]" = EmptyString.
Proof. vm_compute. reflexivity. Qed.

Example hasData_adjacent : hasData "42}][abc" = EmptyString.
Proof. vm_compute. reflexivity. Qed.

(** C10 at the input [42}]x[abc]: the text has no ["null"], its first
    ['['] is at 5 and its only ["}]"] at 2, before the bracket; the count
    [b2 - b1 + 2] wraps to [2^64 - 1] and [hasData] returns ["[abc"], not
    the empty string. *)
Theorem hasData_reversed_brackets :
  find "42}]x[abc" "null" = npos /\
  find_first_of "42}]x[abc" "[" = 5 /\
  rfind "42}]x[abc" "}]" = 2 /\
  wrap (2 - 5 + 2) = npos /\
  hasData "42}]x[abc" = "[abc".
Proof. repeat split; vm_compute; reflexivity. Qed.

Section Framing.

Context {D : Type} {ops : DoubleOps D} {ext : Externals D}.


(** With a non-empty extraction the text goes to the JSON parser; what
    the parser rejects ends the process. *)
Lemma onMessage_rejected (mpc : MPC) (a : ascii) (rest : string) :
  hasData (String "4" (String "2" (String a rest))) <> EmptyString ->
  json_parse (hasData (String "4" (String "2" (String a rest)))) = None ->
  onMessage mpc (String "4" (String "2" (String a rest)))
    = (Crashed UncaughtException, mpc).
Proof.
  intros Hdata Hparse. unfold onMessage.
  destruct (String.eqb_spec
              (hasData (String "4" (String "2" (String a rest)))) EmptyString)
    as [Heq | _]; [contradiction|].
  cbn [negb]. rewrite Hparse. reflexivity.
Qed.

End Framing.

(** *** The three searches *)

Section Searches.

Local Open Scope Z_scope.

Lemma find_from_spec (pat s : string) (i : Z) :
  (find_from pat s i = npos /\ forall k, ~ occurs_at pat s k) \/
  (exists k, find_from pat s i = i + Z.of_nat k /\ occurs_at pat s k).
Proof.
  revert i. induction s as [|c s IH]; intros i.
  - cbn [find_from]. destruct (prefix pat EmptyString) eqn:Hp.
    + right. exists 0%nat. split; [lia|]. split; [simpl; lia | exact Hp].
    + left. split; [reflexivity|]. intros k [Hk Hocc].
      simpl in Hk. assert (k = 0%nat) by lia. subst k.
      cbn [drop] in Hocc. congruence.
  - cbn [find_from]. destruct (prefix pat (String c s)) eqn:Hp.
    + right. exists 0%nat. split; [lia|]. split; [simpl; lia | exact Hp].
    + destruct (IH (i + 1)) as [[Hnone Hno] | (k & Hk & Hle & Hocc)].
      * left. split; [exact Hnone|]. intros [|k] [Hk Hocc].
        -- cbn [drop] in Hocc. congruence.
        -- apply (Hno k). split; [simpl in Hk; lia | exact Hocc].
      * right. exists (S k). split; [lia|].
        split; [simpl; lia | exact Hocc].
Qed.

Lemma rfind_from_spec (pat s : string) (i : Z) :
  0 <= i -> i + size s < npos ->
  (rfind_from pat s i = npos /\ forall k, ~ occurs_at pat s k) \/
  (exists k, rfind_from pat s i = i + Z.of_nat k /\ last_at pat s k).
Proof.
  unfold size. revert i. induction s as [|c s IH]; intros i Hi Hlt.
  - cbn [rfind_from]. destruct (prefix pat EmptyString) eqn:Hp.
    + right. exists 0%nat. split; [lia|]. split.
      * split; [simpl; lia | exact Hp].
      * intros j Hj [Hle _]. simpl in Hle. lia.
    + left. split; [reflexivity|]. intros k [Hk Hocc].
      simpl in Hk. assert (k = 0%nat) by lia. subst k.
      cbn [drop] in Hocc. congruence.
  - cbn [rfind_from]. cbn [String.length] in Hlt.
    destruct (IH (i + 1)) as [[Hnone Hno] | (k & Hk & [Hle Hocc] & Hlast)];
      [lia | lia | |].
    + rewrite Hnone, Z.eqb_refl.
      destruct (prefix pat (String c s)) eqn:Hp.
      * right. exists 0%nat. split; [lia|]. split.
        -- split; [simpl; lia | exact Hp].
        -- intros [|j] Hj [Hjle Hjocc]; [lia|].
           apply (Hno j). split; [simpl in Hjle; lia | exact Hjocc].
      * left. split; [reflexivity|]. intros [|k] [Hk Hocc].
        -- cbn [drop] in Hocc. congruence.
        -- apply (Hno k). split; [simpl in Hk; lia | exact Hocc].
    + replace (rfind_from pat s (i + 1) =? npos) with false
        by (symmetry; apply Z.eqb_neq; lia).
      right. exists (S k). split; [lia|]. split.
      * split; [simpl; lia | exact Hocc].
      * intros [|j] Hj [Hjle Hjocc]; [lia|].
        apply (Hlast j); [lia|]. split; [simpl in Hjle; lia | exact Hjocc].
Qed.

Lemma mem_char_single (c d : ascii) :
  mem_char c (String d EmptyString) = true <-> c = d.
Proof.
  cbn [mem_char]. rewrite orb_false_r. apply Ascii.eqb_eq.
Qed.

Lemma find_first_of_from_spec (d : ascii) (s : string) (i : Z) :
  (find_first_of_from (String d EmptyString) s i = npos /\
   forall k, ~ char_at d s k) \/
  (exists k, find_first_of_from (String d EmptyString) s i = i + Z.of_nat k /\
             first_char_at d s k).
Proof.
  unfold first_char_at, char_at.
  revert i. induction s as [|c s IH]; intros i.
  - left. split; [reflexivity|]. intros k Hk. destruct k; discriminate Hk.
  - cbn [find_first_of_from].
    destruct (mem_char c (String d EmptyString)) eqn:Hm.
    + apply mem_char_single in Hm. subst c.
      right. exists 0%nat. split; [lia|]. split; [reflexivity|].
      intros j Hj. lia.
    + assert (Hcd : c <> d).
      { intros ->. rewrite (proj2 (mem_char_single d d) eq_refl) in Hm.
        discriminate Hm. }
      destruct (IH (i + 1)) as [[Hnone Hno] | (k & Hk & Hat & Hfirst)].
      * left. split; [exact Hnone|]. intros [|k] Hk.
        -- simpl in Hk. congruence.
        -- exact (Hno k Hk).
      * right. exists (S k). split; [lia|]. split; [exact Hat|].
        intros [|j] Hj Hget.
        -- simpl in Hget. congruence.
        -- apply (Hfirst j); [lia | exact Hget].
Qed.

End Searches.

(** *** [hasData], case by case *)

Section Extraction.

Local Open Scope Z_scope.

Lemma get_in_range (c : ascii) (s : string) (k : nat) :
  char_at c s k -> (k < String.length s)%nat.
Proof.
  unfold char_at. revert k. induction s as [|d s IH]; intros k Hk.
  - destruct k; discriminate Hk.
  - destruct k as [|k]; [simpl; lia|].
    cbn [String.get] in Hk. apply IH in Hk. simpl. lia.
Qed.

Lemma drop_at (c : ascii) (s : string) (k : nat) :
  char_at c s k -> exists rest, drop k s = String c rest.
Proof.
  unfold char_at. revert k. induction s as [|d s IH]; intros k Hk.
  - destruct k; discriminate Hk.
  - destruct k as [|k].
    + cbn [String.get] in Hk. injection Hk as ->. exists s. reflexivity.
    + cbn [String.get] in Hk. cbn [drop]. exact (IH k Hk).
Qed.

Lemma drop_length (s : string) (k : nat) :
  String.length (drop k s) = (String.length s - k)%nat.
Proof.
  revert k. induction s as [|d s IH]; intros [|k]; cbn [drop]; try reflexivity.
  rewrite IH. reflexivity.
Qed.

Lemma prefix_length (pat s : string) :
  prefix pat s = true -> (String.length pat <= String.length s)%nat.
Proof.
  revert s. induction pat as [|a pat IH]; intros s Hp; [simpl; lia|].
  destruct s as [|b s]; [discriminate Hp|].
  cbn [prefix] in Hp. destruct (ascii_dec a b); [|discriminate Hp].
  apply IH in Hp. simpl. lia.
Qed.

Lemma substring_to_end (s : string) (k : nat) :
  (k <= String.length s)%nat ->
  substring k (String.length s - k) s = drop k s.
Proof.
  revert k. induction s as [|d s IH]; intros k Hk.
  - destruct k; reflexivity.
  - destruct k as [|k].
    + cbn [drop]. rewrite Nat.sub_0_r. clear.
      generalize (String d s). intros t.
      induction t as [|e t IHt]; [reflexivity|].
      simpl. rewrite IHt. reflexivity.
    + cbn [String.length] in *. cbn [drop]. simpl. apply IH. lia.
Qed.

Lemma find_missing (s pat : string) :
  size s < npos -> (find s pat = npos <-> ~ contains pat s).
Proof.
  unfold size, find, contains. intros Hlt.
  destruct (find_from_spec pat s 0) as [[Hnone Hno] | (k & Hk & Hle & Hocc)].
  - split; [|intros _; exact Hnone].
    intros _ [k Hk]. exact (Hno k Hk).
  - split.
    + intros Hnone. lia.
    + intros Hno. exfalso. apply Hno. exists k. split; assumption.
Qed.

Lemma rfind_missing (s pat : string) :
  size s < npos -> ~ contains pat s -> rfind s pat = npos.
Proof.
  unfold rfind, contains. intros Hlt Hno.
  destruct (rfind_from_spec pat s 0) as [[Hnone _] | (k & _ & Hocc & _)];
    [lia | lia | exact Hnone |].
  exfalso. apply Hno. exists k. exact Hocc.
Qed.

Lemma rfind_last (s pat : string) (k : nat) :
  size s < npos -> last_at pat s k -> rfind s pat = Z.of_nat k.
Proof.
  unfold rfind. intros Hlt [Hocc Hlast].
  destruct (rfind_from_spec pat s 0)
    as [[_ Hno] | (k' & Hk' & Hocc' & Hlast')]; [lia | lia | |].
  - exfalso. exact (Hno k Hocc).
  - destruct (Nat.lt_trichotomy k k') as [Hlt' | [-> | Hgt]].
    + exfalso. exact (Hlast k' Hlt' Hocc').
    + lia.
    + exfalso. exact (Hlast' k Hgt Hocc).
Qed.

Lemma find_first_of_missing (s : string) (c : ascii) :
  (forall k, ~ char_at c s k) ->
  find_first_of s (String c EmptyString) = npos.
Proof.
  unfold find_first_of. intros Hno.
  destruct (find_first_of_from_spec c s 0) as [[Hnone _] | (k & _ & Hat & _)];
    [exact Hnone|].
  exfalso. exact (Hno k Hat).
Qed.

Lemma find_first_of_first (s : string) (c : ascii) (k : nat) :
  first_char_at c s k ->
  find_first_of s (String c EmptyString) = Z.of_nat k.
Proof.
  unfold find_first_of. intros [Hat Hfirst].
  destruct (find_first_of_from_spec c s 0)
    as [[_ Hno] | (k' & Hk' & Hat' & Hfirst')].
  - exfalso. exact (Hno k Hat).
  - destruct (Nat.lt_trichotomy k k') as [Hlt' | [-> | Hgt]].
    + exfalso. exact (Hfirst' k Hlt' Hat).
    + lia.
    + exfalso. exact (Hfirst k' Hgt Hat').
Qed.

(** The position [hasData] passes to [substr] lies inside the text. *)
Lemma find_first_of_in_range (s : string) (c : ascii) :
  find_first_of s (String c EmptyString) = npos \/
  0 <= find_first_of s (String c EmptyString) < size s.
Proof.
  unfold find_first_of, size.
  destruct (find_first_of_from_spec c s 0) as [[Hnone _] | (k & Hk & Hat & _)].
  - left. exact Hnone.
  - right. apply get_in_range in Hat. lia.
Qed.

(** A text that contains ["null"] yields the empty string, whatever else
    it contains. *)
Lemma hasData_null (s : string) :
  size s < npos -> contains "null" s -> hasData s = EmptyString.
Proof.
  intros Hlt Hnull. unfold hasData.
  destruct (find s "null" =? npos) eqn:Hf; [|reflexivity].
  apply Z.eqb_eq in Hf. apply (find_missing s "null" Hlt) in Hf.
  contradiction.
Qed.

(** Without a ['['] or without a ["}]"] the result is empty. *)
Lemma hasData_incomplete (s : string) :
  size s < npos ->
  (forall k, ~ char_at "[" s k) \/ ~ contains "}]" s ->
  hasData s = EmptyString.
Proof.
  intros Hlt Hmiss. unfold hasData.
  destruct (negb (find s "null" =? npos)); [reflexivity|].
  destruct Hmiss as [Hopen | Hclose].
  - rewrite (find_first_of_missing s "[" Hopen), Z.eqb_refl. reflexivity.
  - rewrite (rfind_missing s "}]" Hlt Hclose), Z.eqb_refl.
    rewrite andb_false_r. reflexivity.
Qed.

(** With no ["null"], the first ['['] at [b1] and the last ["}]"] at a
    later [b2], the result is the text from [b1] through [b2 + 1]. *)
Lemma hasData_payload (s : string) (b1 b2 : nat) :
  size s < npos -> ~ contains "null" s ->
  first_char_at "[" s b1 -> last_at "}]" s b2 -> (b1 < b2)%nat ->
  hasData s = substring b1 (b2 - b1 + 2) s.
Proof.
  intros Hlt Hnull Hopen Hclose Horder. unfold hasData.
  rewrite (proj2 (find_missing s "null" Hlt) Hnull), Z.eqb_refl.
  rewrite (find_first_of_first s "[" b1 Hopen).
  rewrite (rfind_last s "}]" b2 Hlt Hclose).
  destruct Hclose as [[Hle Hocc] _].
  apply prefix_length in Hocc. rewrite drop_length in Hocc.
  cbn [String.length] in Hocc. unfold size, npos in *.
  replace (Z.of_nat b1 =? 2 ^ 64 - 1) with false
    by (symmetry; apply Z.eqb_neq; lia).
  replace (Z.of_nat b2 =? 2 ^ 64 - 1) with false
    by (symmetry; apply Z.eqb_neq; lia).
  cbn [negb andb]. unfold substr, wrap, size.
  rewrite Z.mod_small by lia. rewrite Z.min_l by lia.
  rewrite Nat2Z.id. f_equal. lia.
Qed.

(** With no ["null"] and the last ["}]"] more than two positions before
    the first ['['], the count wraps and the result is the whole text from
    the ['['] on, which is not empty. *)
Lemma hasData_wrapped (s : string) (b1 b2 : nat) :
  size s < npos -> ~ contains "null" s ->
  first_char_at "[" s b1 -> last_at "}]" s b2 -> (b2 + 2 < b1)%nat ->
  hasData s = drop b1 s /\ hasData s <> EmptyString.
Proof.
  intros Hlt Hnull Hopen Hclose Horder.
  assert (Hdata : hasData s = drop b1 s).
  { unfold hasData.
    rewrite (proj2 (find_missing s "null" Hlt) Hnull), Z.eqb_refl.
    rewrite (find_first_of_first s "[" b1 Hopen).
    rewrite (rfind_last s "}]" b2 Hlt Hclose).
    destruct Hopen as [Hat _]. apply get_in_range in Hat.
    unfold size, npos in *.
    replace (Z.of_nat b1 =? 2 ^ 64 - 1) with false
      by (symmetry; apply Z.eqb_neq; lia).
    replace (Z.of_nat b2 =? 2 ^ 64 - 1) with false
      by (symmetry; apply Z.eqb_neq; lia).
    cbn [negb andb]. unfold substr, wrap, size.
    replace ((Z.of_nat b2 - Z.of_nat b1 + 2) mod 2 ^ 64)
      with (Z.of_nat b2 - Z.of_nat b1 + 2 + 2 ^ 64)
      by (apply Z.mod_unique with (q := -1); lia).
    rewrite Z.min_r by lia. rewrite Nat2Z.id.
    replace (Z.to_nat (Z.of_nat (String.length s) - Z.of_nat b1))
      with (String.length s - b1)%nat by lia.
    apply substring_to_end. lia. }
  split; [exact Hdata|].
  rewrite Hdata. destruct Hopen as [Hat _].
  destruct (drop_at _ _ _ Hat) as [rest ->]. discriminate.
Qed.

(** With the last ["}]"] immediately before the first ['['] the count is
    0 and the result is empty. *)
Lemma hasData_touching (s : string) (b1 b2 : nat) :
  size s < npos -> ~ contains "null" s ->
  first_char_at "[" s b1 -> last_at "}]" s b2 -> (b2 + 2 = b1)%nat ->
  hasData s = EmptyString.
Proof.
  intros Hlt Hnull Hopen Hclose Horder. unfold hasData.
  rewrite (proj2 (find_missing s "null" Hlt) Hnull), Z.eqb_refl.
  rewrite (find_first_of_first s "[" b1 Hopen).
  rewrite (rfind_last s "}]" b2 Hlt Hclose).
  destruct Hopen as [Hat _]. apply get_in_range in Hat.
  unfold size, npos in *.
  replace (Z.of_nat b1 =? 2 ^ 64 - 1) with false
    by (symmetry; apply Z.eqb_neq; lia).
  replace (Z.of_nat b2 =? 2 ^ 64 - 1) with false
    by (symmetry; apply Z.eqb_neq; lia).
  cbn [negb andb]. unfold substr, wrap, size.
  replace (Z.of_nat b2 - Z.of_nat b1 + 2) with 0 by lia.
  rewrite Z.mod_0_l by lia. rewrite Z.min_l by lia.
  cbn [Z.to_nat]. generalize (Z.to_nat (Z.of_nat b1)). clear.
  induction s as [|c s IH]; intros [|k]; try reflexivity.
  cbn [substring]. apply IH.
Qed.

End Extraction.

(** ** Runs on binary64 *)

Example deg2rad_25 : deg2rad (dlit 25 0) = 0x1.becde5da115a9p-2%float.
Proof. vm_compute. reflexivity. Qed.

Example steer_message_run :
  exists c : command float,
    steer_message []
      [dlit 1 1; dlit 5 1; dlit 1 0; dlit 2 0; dlit 3 0; dlit 4 0; dlit 5 0]
      = Ok c /\
    msg_steering_angle c = PrimFloat.div (PrimFloat.opp (dlit 1 1))
                                         0x1.becde5da115a9p-2%float /\
    msg_throttle c = 0.5%float /\
    mpc_x c = [1%float; 2%float] /\
    mpc_y c = [3%float; 4%float] /\
    List.length (next_x c) = 50%nat.
Proof. eexists. repeat split; vm_compute; reflexivity. Qed.

Example global2car_run :
  global2car 0%float 1%float 2%float 4%float 6%float = (3%float, 4%float).
Proof. vm_compute. reflexivity. Qed.

Example design_row_run :
  design_row 3 2%float = [1%float; 2%float; 4%float; 8%float].
Proof. vm_compute. reflexivity. Qed.

Example polyeval_run :
  polyeval [1%float; 2%float; 3%float; 4%float] 2%float = 49%float.
Proof. vm_compute. reflexivity. Qed.

(** Outside exact arithmetic: an infinite coefficient turns the value at 0
    into NaN, since [infinity * 0] is NaN. *)
Example polyeval_infinite_coefficient :
  is_nan (polyeval [1.5%float; infinity; 0%float; 0%float] 0%float) = true.
Proof. vm_compute. reflexivity. Qed.

(** * Further properties of [main.cpp] *)

(** ** [hasData]: what a search result says about the text *)

Section SearchResults.

Local Open Scope Z_scope.

Lemma find_first_of_none (s : string) (c : ascii) :
  size s < npos ->
  find_first_of s (String c EmptyString) = npos ->
  forall k, ~ char_at c s k.
Proof.
  unfold find_first_of, size. intros Hlt Hnone.
  destruct (find_first_of_from_spec c s 0) as [[_ Hno] | (k' & Hk' & Hat & _)];
    [exact Hno|].
  apply get_in_range in Hat. lia.
Qed.

Lemma find_first_of_found (s : string) (c : ascii) (k : nat) :
  Z.of_nat k < npos ->
  find_first_of s (String c EmptyString) = Z.of_nat k ->
  first_char_at c s k.
Proof.
  unfold find_first_of. intros Hk Hfound.
  destruct (find_first_of_from_spec c s 0) as [[Hnone _] | (k' & Hk' & Hfirst)];
    [lia|].
  assert (k = k') by lia. subst k'. exact Hfirst.
Qed.

Lemma rfind_found (s pat : string) (k : nat) :
  size s < npos -> Z.of_nat k < npos ->
  rfind s pat = Z.of_nat k -> last_at pat s k.
Proof.
  unfold rfind. intros Hlt Hk Hfound.
  destruct (rfind_from_spec pat s 0) as [[Hnone _] | (k' & Hk' & Hlast)];
    [lia | lia | lia |].
  assert (k = k') by lia. subst k'. exact Hlast.
Qed.

Lemma rfind_none (s pat : string) :
  size s < npos -> rfind s pat = npos -> ~ contains pat s.
Proof.
  unfold rfind, size. intros Hlt Hnone [k Hocc].
  destruct (rfind_from_spec pat s 0)
    as [[_ Hno] | (k' & Hk' & [[Hle _] _])]; [lia | unfold size; lia | |].
  - exact (Hno k Hocc).
  - lia.
Qed.

End SearchResults.

(** X1 ([hasData_null]) at a telemetry text that also carries the word
    [null]. *)
Lemma hasData_null_witness : hasData "42[null,{x:1}]" = EmptyString.
Proof.
  apply hasData_null.
  - vm_compute. reflexivity.
  - exists 3%nat. split; [simpl; lia | reflexivity].
Defined.

(** X2 ([hasData_incomplete]) at a text with a closing ["}]"] and no
    ['[']. *)
Lemma hasData_incomplete_witness : hasData "42{x:1}]" = EmptyString.
Proof.
  apply hasData_incomplete.
  - vm_compute. reflexivity.
  - left. apply find_first_of_none; vm_compute; reflexivity.
Defined.

(** X3 ([hasData_payload]): the first ['['] at 2 and the last of two
    ["}]"] at 7. *)
Lemma hasData_payload_witness : hasData "42[a}]b}]c" = "[a}]b}]".
Proof.
  apply (hasData_payload "42[a}]b}]c" 2 7).
  - vm_compute. reflexivity.
  - apply find_missing; vm_compute; reflexivity.
  - apply find_first_of_found; vm_compute; reflexivity.
  - apply rfind_found; vm_compute; reflexivity.
  - lia.
Defined.

(** X4 ([hasData_wrapped]): the only ["}]"] at 2 and the first ['['] at
    5. *)
Lemma hasData_wrapped_witness :
  hasData "42}]x[abc" = drop 5 "42}]x[abc" /\ hasData "42}]x[abc" <> EmptyString.
Proof.
  apply (hasData_wrapped "42}]x[abc" 5 2).
  - vm_compute. reflexivity.
  - apply find_missing; vm_compute; reflexivity.
  - apply find_first_of_found; vm_compute; reflexivity.
  - apply rfind_found; vm_compute; reflexivity.
  - lia.
Defined.

(** X5 ([hasData_touching]): the only ["}]"] at 2 and the first ['['] at
    4. *)
Lemma hasData_touching_witness : hasData "42}][abc" = EmptyString.
Proof.
  apply (hasData_touching "42}][abc" 4 2).
  - vm_compute. reflexivity.
  - apply find_missing; vm_compute; reflexivity.
  - apply find_first_of_found; vm_compute; reflexivity.
  - apply rfind_found; vm_compute; reflexivity.
  - lia.
Defined.

Section ExtractionShape.

Local Open Scope Z_scope.

Lemma substring_head (c : ascii) (s : string) (k m : nat) :
  char_at c s k ->
  substring k m s = EmptyString \/ exists rest, substring k m s = String c rest.
Proof.
  unfold char_at. revert k. induction s as [|d s IH]; intros k Hk.
  - destruct k; discriminate Hk.
  - destruct k as [|k].
    + cbn [String.get] in Hk. injection Hk as ->.
      destruct m as [|m]; [left; reflexivity|].
      right. eexists. reflexivity.
    + cbn [String.get] in Hk. cbn [substring]. exact (IH k Hk).
Qed.

(** X6: whatever the text, the extraction is either empty or a part of
    the text that begins at its first ['[']. *)
Theorem hasData_begins_with_bracket (s : string) :
  hasData s = EmptyString \/
  exists k m rest,
    first_char_at "[" s k /\
    hasData s = substring k m s /\
    hasData s = String "[" rest.
Proof.
  unfold hasData.
  destruct (negb (find s "null" =? npos)); [left; reflexivity|].
  destruct (find_first_of s "[" =? npos) eqn:Hb1; [left; reflexivity|].
  destruct (rfind s "}]" =? npos); [left; reflexivity|].
  cbn [negb andb]. apply Z.eqb_neq in Hb1.
  unfold find_first_of in *.
  destruct (find_first_of_from_spec "[" s 0) as [[Hnone _] | (k & Hk & Hfirst)];
    [contradiction|].
  rewrite Hk, Z.add_0_l. unfold substr. rewrite Nat2Z.id.
  set (m := Z.to_nat _).
  destruct (substring_head "[" s k m (proj1 Hfirst)) as [Hempty | [rest Hrest]].
  - left. exact Hempty.
  - right. exists k, m, rest. split; [exact Hfirst|]. split; [reflexivity|].
    exact Hrest.
Qed.

End ExtractionShape.

(** ** The handler: which messages are answered, and how *)

Section Handler.

Context {D : Type} {ops : DoubleOps D} {ext : Externals D}.

Lemma onMessage_not_42 (mpc : MPC) (c1 c2 c3 : ascii) (rest : string) :
  c1 <> "4"%char \/ c2 <> "2"%char ->
  onMessage mpc (String c1 (String c2 (String c3 rest))) = (NoReply, mpc).
Proof.
  intros Hnot. unfold onMessage.
  destruct c1 as [[] [] [] [] [] [] [] []]; try reflexivity.
  destruct c2 as [[] [] [] [] [] [] [] []]; try reflexivity.
  destruct Hnot as [Hnot | Hnot]; exfalso; apply Hnot; reflexivity.
Qed.

Lemma onMessage_too_short (mpc : MPC) (sdata : string) :
  (String.length sdata <= 2)%nat -> onMessage mpc sdata = (NoReply, mpc).
Proof.
  intros Hshort. destruct sdata as [|c1 [|c2 [|c3 rest]]].
  - reflexivity.
  - unfold onMessage. destruct c1 as [[] [] [] [] [] [] [] []]; reflexivity.
  - unfold onMessage. destruct c1 as [[] [] [] [] [] [] [] []]; try reflexivity.
    destruct c2 as [[] [] [] [] [] [] [] []]; reflexivity.
  - simpl in Hshort. lia.
Qed.

Lemma steer_message_short (coeffs result : list D) :
  (List.length result < 2)%nat ->
  steer_message coeffs result = Fault UndefinedBehaviour.
Proof.
  intros Hshort. destruct result as [|r0 [|r1 rest]]; try reflexivity.
  simpl in Hshort. lia.
Qed.

Lemma solver_input_short (t : telemetry D) :
  (List.length (t_ptsy t) < List.length (t_ptsx t))%nat ->
  solver_input t = Fault UndefinedBehaviour.
Proof.
  intros Hshort. unfold solver_input.
  destruct (predict _ _ _ _ _ _) as [[[px py] psi] v].
  rewrite transform_waypoints_short by assumption. reflexivity.
Qed.

Lemma telemetry_cycle_not_manual (mpc : MPC) (t : telemetry D) :
  fst (telemetry_cycle mpc t) <> Sent Manual.
Proof.
  unfold telemetry_cycle.
  destruct (solver_input t) as [[state coeffs] | f]; [|discriminate].
  destruct (Solve mpc state coeffs) as [solution mpc'].
  destruct (steer_message coeffs (values solution)); discriminate.
Qed.

Lemma telemetry_cycle_solver (mpc : MPC) (t : telemetry D) :
  snd (telemetry_cycle mpc t) = mpc \/
  exists state coeffs,
    solver_input t = Ok (state, coeffs) /\
    snd (telemetry_cycle mpc t) = snd (Solve mpc state coeffs).
Proof.
  unfold telemetry_cycle.
  destruct (solver_input t) as [[state coeffs] | f]; [|left; reflexivity].
  right. exists state, coeffs. split; [reflexivity|].
  destruct (Solve mpc state coeffs) as [solution mpc'].
  destruct (steer_message coeffs (values solution)); reflexivity.
Qed.

(** X7: a message of at most two characters, or one that does not begin
    with [42], is ignored: nothing is sent and the solver is not called. *)
Theorem onMessage_ignored (mpc : MPC) (sdata : string) :
  (forall a rest, sdata <> String "4" (String "2" (String a rest))) ->
  onMessage mpc sdata = (NoReply, mpc).
Proof.
  intros Hnot.
  destruct sdata as [|c1 [|c2 [|c3 rest]]];
    try (apply onMessage_too_short; simpl; lia).
  apply onMessage_not_42.
  destruct (ascii_dec c1 "4") as [-> | Hc1]; [|left; exact Hc1].
  destruct (ascii_dec c2 "2") as [-> | Hc2]; [|right; exact Hc2].
  exfalso. exact (Hnot c3 rest eq_refl).
Qed.







(** X9: a message that parses to an event other than ["telemetry"] is
    dropped: nothing is sent and the solver is not called. *)
Theorem onMessage_other_event (mpc : MPC) (a : ascii) (rest : string)
        (j : json) (event : string) :
  hasData (String "4" (String "2" (String a rest))) <> EmptyString ->
  json_parse (hasData (String "4" (String "2" (String a rest)))) = Some j ->
  json_event j = Some event ->
  event <> "telemetry" ->
  onMessage mpc (String "4" (String "2" (String a rest))) = (NoReply, mpc).
Proof.
  intros Hdata Hparse Hevent Hother. unfold onMessage.
  destruct (String.eqb_spec
              (hasData (String "4" (String "2" (String a rest)))) EmptyString)
    as [Hempty | _]; [contradiction|].
  cbn [negb]. rewrite Hparse, Hevent.
  destruct (String.eqb_spec event "telemetry") as [Heq | _]; [contradiction|].
  reflexivity.
Qed.

(** X10: an exception thrown while the payload is parsed, while the event
    name is read or while one of the eight telemetry fields is read ends
    the process, before the solver is called. *)
Theorem onMessage_uncaught (mpc : MPC) (a : ascii) (rest : string) :
  hasData (String "4" (String "2" (String a rest))) <> EmptyString ->
  json_parse (hasData (String "4" (String "2" (String a rest)))) = None \/
  (exists j,
      json_parse (hasData (String "4" (String "2" (String a rest)))) = Some j /\
      (json_event j = None \/
       json_event j = Some "telemetry" /\ json_telemetry j = None)) ->
  onMessage mpc (String "4" (String "2" (String a rest)))
    = (Crashed UncaughtException, mpc).
Proof.
  intros Hdata Hthrown. unfold onMessage.
  destruct (String.eqb_spec
              (hasData (String "4" (String "2" (String a rest)))) EmptyString)
    as [Hempty | _]; [contradiction|].
  cbn [negb].
  destruct Hthrown as [Hparse | (j & Hparse & [Hevent | [Hevent Hfields]])];
    rewrite Hparse; [reflexivity | rewrite Hevent; reflexivity |].
  rewrite Hevent, String.eqb_refl, Hfields. reflexivity.
Qed.

(** X26: a message that begins with [42], from which [hasData] extracts
    a text that parses to a ["telemetry"] event with all eight fields, is
    handled by the telemetry cycle on exactly that record. *)
Theorem onMessage_telemetry (mpc : MPC) (a : ascii) (rest : string)
        (j : json) (t : telemetry D) :
  hasData (String "4" (String "2" (String a rest))) <> EmptyString ->
  json_parse (hasData (String "4" (String "2" (String a rest)))) = Some j ->
  json_event j = Some "telemetry" ->
  json_telemetry j = Some t ->
  onMessage mpc (String "4" (String "2" (String a rest)))
    = telemetry_cycle mpc t.
Proof.
  intros Hdata Hparse Hevent Hfields. unfold onMessage.
  destruct (String.eqb_spec
              (hasData (String "4" (String "2" (String a rest)))) EmptyString)
    as [Hempty | _]; [contradiction|].
  cbn [negb]. rewrite Hparse, Hevent, String.eqb_refl, Hfields. reflexivity.
Qed.

Lemma solver_input_faults (t : telemetry D) (f : fault) :
  solver_input t = Fault f -> f = UndefinedBehaviour \/ f = AssertionFailed.
Proof.
  unfold solver_input.
  destruct (predict _ _ _ _ _ _) as [[[px py] psi] v].
  destruct (Nat.lt_ge_cases (List.length (t_ptsy t)) (List.length (t_ptsx t)))
    as [Hshort | Hle].
  - rewrite transform_waypoints_short by exact Hshort. cbn [bind].
    intros Hf. injection Hf as <-. left. reflexivity.
  - rewrite transform_waypoints_ok by exact Hle. cbn [bind].
    unfold polyfit.
    destruct (negb _); [intros Hf; injection Hf as <-; right; reflexivity|].
    destruct (negb _); [intros Hf; injection Hf as <-; right; reflexivity|].
    cbn [bind]. unfold eigen_at.
    destruct (nth_error _ 1); cbn [bind]; intros Hf;
      [discriminate Hf | injection Hf as <-; right; reflexivity].
Qed.

Lemma telemetry_cycle_kept (mpc : MPC) (t : telemetry D) :
  fst (telemetry_cycle mpc t) = Crashed AssertionFailed ->
  snd (telemetry_cycle mpc t) = mpc.
Proof.
  unfold telemetry_cycle.
  destruct (solver_input t) as [[state coeffs] | f]; [|reflexivity].
  destruct (Solve mpc state coeffs) as [solution mpc'].
  destruct (steer_message coeffs (values solution)) as [c | f] eqn:Hmsg;
    [discriminate|].
  destruct (values solution) as [|r0 [|r1 rest]]; cbn in Hmsg;
    try discriminate Hmsg; injection Hmsg as <-; discriminate.
Qed.

Lemma telemetry_cycle_not_silent (mpc : MPC) (t : telemetry D) :
  fst (telemetry_cycle mpc t) <> NoReply /\
  fst (telemetry_cycle mpc t) <> Crashed UncaughtException.
Proof.
  unfold telemetry_cycle.
  destruct (solver_input t) as [[state coeffs] | f] eqn:Hin.
  - destruct (Solve mpc state coeffs) as [solution mpc'].
    destruct (steer_message coeffs (values solution)) as [c | f] eqn:Hmsg;
      [split; discriminate|].
    destruct (values solution) as [|r0 [|r1 rest]]; cbn in Hmsg;
      try discriminate Hmsg; injection Hmsg as <-; split; discriminate.
  - destruct (solver_input_faults t f Hin) as [-> | ->]; split; discriminate.
Qed.

Lemma telemetry_cycle_steer (mpc : MPC) (t : telemetry D) (c : command D) :
  fst (telemetry_cycle mpc t) = Sent (Steer c) ->
  exists state coeffs,
    solver_input t = Ok (state, coeffs) /\
    steer_message coeffs (values (fst (Solve mpc state coeffs))) = Ok c /\
    snd (telemetry_cycle mpc t) = snd (Solve mpc state coeffs).
Proof.
  unfold telemetry_cycle.
  destruct (solver_input t) as [[state coeffs] | f]; [|discriminate].
  intros Hsent. exists state, coeffs. split; [reflexivity|].
  destruct (Solve mpc state coeffs) as [solution mpc']. cbn [fst snd] in *.
  destruct (steer_message coeffs (values solution)) as [c' | f];
    [|discriminate Hsent].
  cbn [fst snd] in *. injection Hsent as ->. split; reflexivity.
Qed.

(** X11: a message that is ignored, answered with the manual reply, ended
    by an uncaught exception or ended by the abort of [polyfit] leaves the
    [mpc] object as it was; a message answered with a steer message
    parsed to a telemetry record, made one call of [mpc.Solve] on the
    state and coefficients computed from that record, and was answered
    from the vector that call returned.  (Nothing is said of a cycle
    that reads outside a vector.) *)
Theorem onMessage_solver_calls (mpc : MPC) (sdata : string) :
  (fst (onMessage mpc sdata) = NoReply \/
   fst (onMessage mpc sdata) = Sent Manual \/
   fst (onMessage mpc sdata) = Crashed UncaughtException \/
   fst (onMessage mpc sdata) = Crashed AssertionFailed ->
   snd (onMessage mpc sdata) = mpc) /\
  (forall c,
      fst (onMessage mpc sdata) = Sent (Steer c) ->
      exists j t state coeffs,
        json_parse (hasData sdata) = Some j /\
        json_event j = Some "telemetry" /\
        json_telemetry j = Some t /\
        solver_input t = Ok (state, coeffs) /\
        steer_message coeffs (values (fst (Solve mpc state coeffs))) = Ok c /\
        snd (onMessage mpc sdata) = snd (Solve mpc state coeffs)).
Proof.
  assert (Hignored : onMessage mpc sdata = (NoReply, mpc) \/
                     exists a rest,
                       sdata = String "4" (String "2" (String a rest))).
  { destruct sdata as [|c1 [|c2 [|c3 rest]]];
      try (left; apply onMessage_too_short; simpl; lia).
    destruct (ascii_dec c1 "4") as [-> | Hc1];
      [|left; apply onMessage_not_42; left; exact Hc1].
    destruct (ascii_dec c2 "2") as [-> | Hc2];
      [|left; apply onMessage_not_42; right; exact Hc2].
    right. exists c3, rest. reflexivity. }
  destruct Hignored as [Hno | (a & rest & ->)].
  { rewrite Hno. split; [reflexivity | discriminate]. }
  unfold onMessage.
  destruct (negb _); [|split; [reflexivity | discriminate]].
  destruct (json_parse _) as [j|] eqn:Hparse;
    [|split; [reflexivity | discriminate]].
  destruct (json_event j) as [event|] eqn:Hevent;
    [|split; [reflexivity | discriminate]].
  destruct (String.eqb_spec event "telemetry") as [-> | _];
    [|split; [reflexivity | discriminate]].
  destruct (json_telemetry j) as [t|] eqn:Hfields;
    [|split; [reflexivity | discriminate]].
  split.
  - intros [Hout | [Hout | [Hout | Hout]]].
    + exfalso. exact (proj1 (telemetry_cycle_not_silent mpc t) Hout).
    + exfalso. exact (telemetry_cycle_not_manual mpc t Hout).
    + exfalso. exact (proj2 (telemetry_cycle_not_silent mpc t) Hout).
    + exact (telemetry_cycle_kept mpc t Hout).
  - intros c Hsent.
    destruct (telemetry_cycle_steer mpc t c Hsent)
      as (state & coeffs & Hin & Hmsg & Hcall).
    exists j, t, state, coeffs. auto 10.
Qed.

(** X12: a telemetry cycle whose [ptsy] is not shorter than [ptsx] goes
    one of three ways, decided by sizes alone: with fewer than four way
    points [polyfit] aborts and the solver is not called; otherwise the
    solver is called once, and a vector of at least two values is
    answered with a steer message, while for a shorter vector building
    the message reads outside it. *)
Theorem telemetry_cycle_outcomes (mpc : MPC) (t : telemetry D) :
  (List.length (t_ptsx t) <= List.length (t_ptsy t))%nat ->
  let call := Solve mpc (fst (solver_arguments t)) (snd (solver_arguments t)) in
  ((List.length (t_ptsx t) < 4)%nat /\
   telemetry_cycle mpc t = (Crashed AssertionFailed, mpc)) \/
  (enough_waypoints t /\
   (2 <= List.length (values (fst call)))%nat /\
   exists c, telemetry_cycle mpc t = (Sent (Steer c), snd call)) \/
  (enough_waypoints t /\
   (List.length (values (fst call)) < 2)%nat /\
   steer_message (snd (solver_arguments t)) (values (fst call))
     = Fault UndefinedBehaviour).
Proof.
  intros Hle call.
  destruct (Nat.lt_ge_cases (List.length (t_ptsx t)) 4) as [Hfew | Hfour].
  { left. split; [exact Hfew|]. unfold telemetry_cycle.
    rewrite solver_input_too_few by assumption. reflexivity. }
  right.
  assert (Hin : enough_waypoints t) by (split; assumption).
  destruct (Nat.lt_ge_cases (List.length (values (fst call))) 2)
    as [Hshort | Hlong].
  - right. split; [exact Hin|]. split; [exact Hshort|].
    apply steer_message_short. exact Hshort.
  - left. split; [exact Hin|]. split; [exact Hlong|].
    destruct (values (fst call)) as [|r0 [|r1 more]] eqn:Hvals;
      try (simpl in Hlong; lia).
    destruct (telemetry_cycle_ok mpc t r0 r1 more Hin Hvals) as (c & Hc & _).
    exists c. exact Hc.
Qed.

End Handler.

(** A probe that does not begin with [42]. *)
Lemma onMessage_ignored_witness :
  onMessage (D := R) (ext := no_solver) 0%nat "2probe" = (NoReply, 0%nat).
Proof.
  apply (onMessage_ignored (D := R) (ext := no_solver) 0%nat "2probe").
  intros a rest. discriminate.
Defined.

(** An event named [ping]. *)
Lemma onMessage_other_event_witness :
  onMessage (D := R) (ext := event_only "ping") 0%nat "42[ping,{}]"
  = (NoReply, 0%nat).
Proof.
  apply (onMessage_other_event (D := R) (ext := event_only "ping")
           0%nat "["%char "ping,{}]" tt "ping").
  - vm_compute. discriminate.
  - reflexivity.
  - reflexivity.
  - discriminate.
Defined.

(** A payload the parser rejects. *)
Lemma onMessage_uncaught_witness :
  onMessage (D := R) (ext := no_solver) 0%nat "42[telemetry,{}]"
  = (Crashed UncaughtException, 0%nat).
Proof.
  apply (onMessage_uncaught (D := R) (ext := no_solver)
           0%nat "["%char "telemetry,{}]").
  - vm_compute. discriminate.
  - left. reflexivity.
Defined.

(** ** The stages in any arithmetic: message, polynomial, fit, transform *)

Section PipelineStages.

Context {D : Type} {ops : DoubleOps D}.

Local Open Scope nat_scope.

Lemma firstn_then {A : Type} (n m : nat) (l : list A) :
  (firstn n l ++ firstn m (skipn n l))%list = firstn (n + m) l.
Proof.
  revert l. induction n as [|n IH]; intros l; [reflexivity|].
  destruct l as [|a l]; [destruct m; reflexivity|].
  cbn [Nat.add firstn skipn app]. rewrite IH. reflexivity.
Qed.

(** X13: the values after the first two are the predicted trajectory:
    with [n = (size - 2) / 2], the next [n] values are [mpc_x] and the [n]
    after them [mpc_y]; both lists have [n] points and a last value left
    over by an odd size is not sent. *)
Theorem steer_message_trajectory (coeffs : list D) (r0 r1 : D) (rest : list D) :
  exists c,
    steer_message coeffs (r0 :: r1 :: rest) = Ok c /\
    List.length (mpc_x c) = List.length rest / 2 /\
    List.length (mpc_y c) = List.length rest / 2 /\
    (mpc_x c ++ mpc_y c)%list = firstn (2 * (List.length rest / 2)) rest.
Proof.
  eexists. split; [reflexivity|]. cbn [mpc_x mpc_y].
  replace (List.length (r0 :: r1 :: rest) - 2) with (List.length rest)
    by (simpl; lia).
  set (n := List.length rest / 2).
  assert (Hn : 2 * n <= List.length rest)
    by (apply Nat.Div0.mul_div_le).
  replace (skipn (n + 2) (r0 :: r1 :: rest)) with (skipn n rest)
    by (rewrite Nat.add_comm; reflexivity).
  cbn [skipn].
  split; [rewrite length_firstn; lia|].
  split; [rewrite length_firstn, length_skipn; lia|].
  rewrite firstn_then. f_equal. lia.
Qed.

(** X14: building the message reads past the end of the solver's vector
    exactly when the vector has fewer than two values; no other fault
    arises there. *)
Theorem steer_message_fault (coeffs result : list D) :
  (steer_message coeffs result = Fault UndefinedBehaviour <->
   List.length result < 2) /\
  (forall f, steer_message coeffs result = Fault f -> f = UndefinedBehaviour).
Proof.
  destruct result as [|r0 [|r1 rest]].
  - split; [split; [simpl; lia | reflexivity]|].
    intros f Hf. injection Hf as <-. reflexivity.
  - split; [split; [simpl; lia | reflexivity]|].
    intros f Hf. injection Hf as <-. reflexivity.
  - split; [split; [discriminate | simpl; lia]|].
    intros f Hf. discriminate Hf.
Qed.

(** X16: [polyeval] adds the terms from the constant one upwards, so one
    more coefficient adds one more term to the sum, in every arithmetic. *)
Theorem polyeval_snoc (coeffs : list D) (c x : D) :
  polyeval (coeffs ++ [c])%list x =
    dadd (polyeval coeffs x) (dmul c (dpow x (List.length coeffs))).
Proof.
  unfold polyeval. generalize (dlit 0 0) as acc.
  change (List.length coeffs) with (0 + List.length coeffs).
  generalize 0 as i.
  induction coeffs as [|d coeffs IH]; intros i acc.
  - cbn [app polyeval_loop List.length]. rewrite Nat.add_0_r. reflexivity.
  - cbn [app polyeval_loop List.length]. rewrite IH.
    replace (S i + List.length coeffs) with (i + S (List.length coeffs)) by lia.
    reflexivity.
Qed.

(** X18: [polyfit] aborts exactly when the two vectors differ in size or
    the order is not between 1 and the number of points less one;
    otherwise it returns [order + 1] coefficients. *)
Theorem polyfit_assertions {ext : Externals D}
        (xvals yvals : list D) (order : Z) :
  (polyfit xvals yvals order = Fault AssertionFailed <->
   ~ (List.length xvals = List.length yvals /\
      (1 <= order <= Z.of_nat (List.length xvals) - 1)%Z)) /\
  (forall f, polyfit xvals yvals order = Fault f -> f = AssertionFailed) /\
  (forall coeffs,
      polyfit xvals yvals order = Ok coeffs ->
      Z.of_nat (List.length coeffs) = (order + 1)%Z).
Proof.
  unfold polyfit.
  destruct (Z.eqb_spec (Z.of_nat (List.length xvals))
                       (Z.of_nat (List.length yvals))) as [Hsize | Hsize].
  - cbn [negb].
    destruct (Z.geb_spec order 1) as [Hlow | Hlow];
      destruct (Z.leb_spec order (Z.of_nat (List.length xvals) - 1))
        as [Hhigh | Hhigh]; cbn [andb negb].
    + split; [split; [discriminate | intros Hno; exfalso; apply Hno; lia]|].
      split; [discriminate|].
      intros coeffs Hok. injection Hok as <-.
      rewrite length_map, length_seq. lia.
    + split; [split; [lia | reflexivity]|].
      split; [intros f Hf; injection Hf as <-; reflexivity | discriminate].
    + split; [split; [lia | reflexivity]|].
      split; [intros f Hf; injection Hf as <-; reflexivity | discriminate].
    + split; [split; [lia | reflexivity]|].
      split; [intros f Hf; injection Hf as <-; reflexivity | discriminate].
  - cbn [negb].
    split; [split; [lia | reflexivity]|].
    split; [intros f Hf; injection Hf as <-; reflexivity | discriminate].
Qed.

(** X20: the transform loop reads past the end of [ptsy] exactly when
    [ptsy] is shorter than [ptsx]; otherwise it yields one car
    co-ordinate pair per entry of [ptsx], the [i]-th from [ptsx[i]] and
    [ptsy[i]], and ignores the entries of [ptsy] beyond. *)
Theorem transform_waypoints_shape (psi px py : D) (ptsx ptsy : list D) :
  (List.length ptsy < List.length ptsx /\
   transform_waypoints psi px py ptsx ptsy = Fault UndefinedBehaviour) \/
  (List.length ptsx <= List.length ptsy /\
   exists way_pts_x way_pts_y,
     transform_waypoints psi px py ptsx ptsy = Ok (way_pts_x, way_pts_y) /\
     List.length way_pts_x = List.length ptsx /\
     List.length way_pts_y = List.length ptsx /\
     forall i x_global y_global,
       nth_error ptsx i = Some x_global ->
       nth_error ptsy i = Some y_global ->
       nth_error way_pts_x i
         = Some (fst (global2car psi px py x_global y_global)) /\
       nth_error way_pts_y i
         = Some (snd (global2car psi px py x_global y_global))).
Proof.
  destruct (Nat.lt_ge_cases (List.length ptsy) (List.length ptsx))
    as [Hshort | Hle].
  - left. split; [exact Hshort|].
    apply transform_waypoints_short. exact Hshort.
  - right. split; [exact Hle|].
    rewrite transform_waypoints_ok by exact Hle.
    eexists. eexists. split; [reflexivity|].
    rewrite !length_map, car_points_length by exact Hle.
    split; [reflexivity|]. split; [reflexivity|].
    intros i xg yg Hx Hy. unfold car_points.
    rewrite !nth_error_map.
    assert (Hxy : nth_error (combine ptsx ptsy) i = Some (xg, yg)).
    { clear Hle. revert ptsy i Hx Hy.
      induction ptsx as [|a ptsx IH]; intros ptsy i Hx Hy.
      - destruct i; discriminate Hx.
      - destruct ptsy as [|b ptsy]; [destruct i; discriminate Hy|].
        destruct i as [|i].
        + cbn in Hx, Hy |- *. congruence.
        + cbn [nth_error combine] in *. exact (IH ptsy i Hx Hy). }
    rewrite Hxy. split; reflexivity.
Qed.

End PipelineStages.

(** ** Exact arithmetic: polynomials, rows, rotation, prediction *)

Section ExactArithmetic.

Local Open Scope R_scope.

Lemma real_one : dlit 1 0 = 1.
Proof. rewrite real_lit. simpl. field. Qed.

Lemma polyeval_loop_shift (coeffs : list R) (x : R) (i : nat) (acc : R) :
  polyeval_loop coeffs x i acc = acc + x ^ i * polyeval_loop coeffs x 0 0.
Proof.
  revert i acc. induction coeffs as [|c coeffs IH]; intros i acc.
  - cbn [polyeval_loop]. ring.
  - cbn [polyeval_loop]. rewrite (IH (S i)), (IH 1%nat).
    cbn [dadd dmul dpow RealOps]. simpl. ring.
Qed.

Lemma polyeval_nil_real (x : R) : polyeval [] x = 0.
Proof. unfold polyeval. apply real_zero. Qed.

Lemma polyeval_cons_real (c : R) (coeffs : list R) (x : R) :
  polyeval (c :: coeffs) x = c + x * polyeval coeffs x.
Proof.
  unfold polyeval. cbn [polyeval_loop].
  rewrite real_zero, polyeval_loop_shift.
  cbn [dadd dmul dpow RealOps]. simpl. ring.
Qed.

(** X17: over the real numbers [polyeval] obeys Horner's recurrence: the
    empty polynomial is 0 and [c :: coeffs] evaluates to
    [c + x * polyeval coeffs x]; so a cubic is
    [c0 + c1 x + c2 x^2 + c3 x^3]. *)
Theorem polyeval_horner (x : R) :
  polyeval [] x = 0 /\
  (forall c coeffs, polyeval (c :: coeffs) x = c + x * polyeval coeffs x) /\
  (forall c0 c1 c2 c3,
      polyeval [c0; c1; c2; c3] x = c0 + c1 * x + c2 * x ^ 2 + c3 * x ^ 3).
Proof.
  split; [apply polyeval_nil_real|].
  split; [intros c coeffs; apply polyeval_cons_real|].
  intros c0 c1 c2 c3. rewrite !polyeval_cons_real, polyeval_nil_real. ring.
Qed.

Lemma row_loop_powers (x : R) (i order : nat) :
  row_loop x (x ^ i) order = map (pow x) (seq (S i) order).
Proof.
  revert i. induction order as [|order IH]; intros i; [reflexivity|].
  cbn [row_loop seq map].
  replace (dmul (x ^ i) x) with (x ^ S i)
    by (cbn [dmul RealOps]; simpl; ring).
  rewrite IH. reflexivity.
Qed.

(** X19: over the real numbers the row that [polyfit] builds for the
    abscissa [x] is [1, x, x^2, ..., x^order]: the matrix handed to the
    QR solve is the Vandermonde matrix of the abscissae. *)
Theorem design_row_powers (order : nat) (x : R) :
  design_row order x = map (pow x) (seq 0 (S order)).
Proof.
  unfold design_row. rewrite real_one.
  change 1 with (x ^ 0) at 2. rewrite row_loop_powers. reflexivity.
Qed.

(** X15: over the real numbers the reference line of every steer message
    built from a cubic has fifty points, at [x = 0, 2, ..., 98], and the
    [k]-th ordinate is the cubic at [2 k]. *)
Theorem reference_line (c0 c1 c2 c3 r0 r1 : R) (rest : list R) :
  exists c,
    steer_message [c0; c1; c2; c3] (r0 :: r1 :: rest) = Ok c /\
    next_x c = map (fun k => 2 * INR k) (seq 0 50) /\
    next_y c =
      map (fun k => c0 + c1 * (2 * INR k) + c2 * (2 * INR k) ^ 2
                    + c3 * (2 * INR k) ^ 3) (seq 0 50).
Proof.
  eexists. split; [reflexivity|]. cbn [next_x next_y].
  assert (Hx : reference_samples = map (fun k => 2 * INR k) (seq 0 50)).
  { unfold reference_samples. apply map_ext. intros k.
    rewrite real_lit, mult_IZR, <- INR_IZR_INZ. simpl. field. }
  split; [exact Hx|].
  rewrite Hx, map_map. apply map_ext. intros k.
  rewrite !polyeval_cons_real, polyeval_nil_real. ring.
Qed.

(** X21: the frame transform keeps the distance between any two points. *)
Theorem global2car_distance (psi px py x1 y1 x2 y2 : R) :
  Rsqr (fst (global2car psi px py x1 y1) - fst (global2car psi px py x2 y2))
  + Rsqr (snd (global2car psi px py x1 y1) - snd (global2car psi px py x2 y2))
  = Rsqr (x1 - x2) + Rsqr (y1 - y2).
Proof.
  rewrite !global2car_unfold.
  cbn [fst snd dadd dsub dmul dneg dsin dcos RealOps]. unfold Rsqr.
  pose proof (sin2_cos2 psi) as Hone. unfold Rsqr in Hone.
  set (s := sin psi) in *. set (c := cos psi) in *.
  replace ((x1 - x2) * (x1 - x2) + (y1 - y2) * (y1 - y2))
    with (((x1 - x2) * (x1 - x2) + (y1 - y2) * (y1 - y2)) * (s * s + c * c))
    by (rewrite Hone; ring).
  ring.
Qed.

(** X22: the frame transform can be undone: rotating the car co-ordinates
    back by [psi] and adding the vehicle position gives the global point,
    so two global points with the same car co-ordinates are equal. *)
Theorem global2car_inverse (psi px py x y : R) :
  x = px + fst (global2car psi px py x y) * cos psi
         - snd (global2car psi px py x y) * sin psi /\
  y = py + fst (global2car psi px py x y) * sin psi
         + snd (global2car psi px py x y) * cos psi /\
  (forall x' y', global2car psi px py x' y' = global2car psi px py x y ->
                 x' = x /\ y' = y).
Proof.
  assert (Hback : forall u v,
             u = px + fst (global2car psi px py u v) * cos psi
                    - snd (global2car psi px py u v) * sin psi /\
             v = py + fst (global2car psi px py u v) * sin psi
                    + snd (global2car psi px py u v) * cos psi).
  { intros u v. rewrite global2car_unfold.
    cbn [fst snd dadd dsub dmul dneg dsin dcos RealOps].
    pose proof (sin2_cos2 psi) as Hone. unfold Rsqr in Hone.
    set (s := sin psi) in *. set (c := cos psi) in *.
    split.
    - replace u with (px + (u - px) * (s * s + c * c)) at 1
        by (rewrite Hone; ring).
      ring.
    - replace v with (py + (v - py) * (s * s + c * c)) at 1
        by (rewrite Hone; ring).
      ring. }
  destruct (Hback x y) as [Hx Hy].
  split; [exact Hx|]. split; [exact Hy|].
  intros x' y' Hsame. destruct (Hback x' y') as [Hx' Hy'].
  rewrite Hsame in Hx', Hy'. split; congruence.
Qed.

(** X23: the predicted position lies [v * 0.1] from the current one,
    along the current heading. *)
Theorem predict_displacement (x y psi v delta a : R) :
  let '(x', y', _, _) := predict x y psi v delta a in
  Rsqr (x' - x) + Rsqr (y' - y) = Rsqr (v * (1 / 10)) /\
  global2car psi x y x' y' = (v * (1 / 10), 0).
Proof.
  rewrite predict_bicycle. cbv beta iota. rewrite global2car_unfold.
  cbn [dadd dsub dmul dneg dsin dcos RealOps]. unfold Rsqr.
  pose proof (sin2_cos2 psi) as Hone. unfold Rsqr in Hone.
  set (s := sin psi) in *. set (c := cos psi) in *.
  assert (Hk : forall k, k * c * c + k * s * s = k).
  { intros k. replace (k * c * c + k * s * s) with (k * (s * s + c * c))
      by ring.
    rewrite Hone. ring. }
  split.
  - transitivity (v * (1 / 10) * (v * (1 / 10)) * c * c
                  + v * (1 / 10) * (v * (1 / 10)) * s * s); [ring | apply Hk].
  - f_equal.
    + transitivity (v * (1 / 10) * c * c + v * (1 / 10) * s * s);
        [ring | apply Hk].
    + ring.
Qed.

(** X24: at speed 0 the compensation leaves position and heading as they
    are, whatever the steering; with steering 0 it leaves the heading as
    it is, whatever the speed. *)
Theorem predict_at_rest (x y psi v delta a : R) :
  predict x y psi 0 delta a = (x, y, psi, a * (1 / 10)) /\
  (let '(_, _, psi', _) := predict x y psi v 0 a in psi' = psi).
Proof.
  rewrite !predict_bicycle. split.
  - replace (x + 0 * cos psi * (1 / 10)) with x by ring.
    replace (y + 0 * sin psi * (1 / 10)) with y by ring.
    replace (psi + 0 / (267 / 100) * delta * (1 / 10)) with psi by field.
    replace (0 + a * (1 / 10)) with (a * (1 / 10)) by ring.
    reflexivity.
  - cbv beta iota. field.
Qed.

(** X25: over the real numbers [deg2rad] and [rad2deg] are inverse to
    each other, and 180 degrees are pi. *)
Theorem deg2rad_rad2deg (x : R) :
  rad2deg (deg2rad x) = x /\ deg2rad (rad2deg x) = x /\ deg2rad 180 = PI.
Proof.
  unfold deg2rad, rad2deg, pi. rewrite !real_lit.
  cbn [dmul ddiv M_PI RealOps]. simpl.
  pose proof PI_RGT_0 as Hpi.
  repeat split; field; lra.
Qed.

End ExactArithmetic.

(** A telemetry message with three way points, decoded by a scripted JSON
    layer: the handler runs the cycle, which aborts in [polyfit]. *)
Lemma onMessage_telemetry_witness :
  onMessage (ext := scripted (fun _ => solved true [])
                             (fun _ => Some (straight_road 3 10%R)))
            0%nat "42[telemetry,{}]"
  = telemetry_cycle (ext := scripted (fun _ => solved true [])
                                     (fun _ => Some (straight_road 3 10%R)))
                    0%nat (straight_road 3 10%R).
Proof.
  apply (onMessage_telemetry
           (ext := scripted (fun _ => solved true [])
                            (fun _ => Some (straight_road 3 10%R)))
           0%nat "["%char "telemetry,{}]"
           (straight_road 3 10%R) (straight_road 3 10%R)).
  - vm_compute. discriminate.
  - reflexivity.
  - reflexivity.
  - reflexivity.
Defined.

(** A message of seven bytes with a NUL byte after [42]: the handler sees
    only [42], which is too short, and sends nothing. *)
Example onMessage_data_nul :
  received_text (String "4" (String "2" (String "000" "null"))) 7 = "42" /\
  onMessage_data (D := R) (ext := no_solver) 0%nat
                 (String "4" (String "2" (String "000" "null"))) 7
  = (NoReply, 0%nat).
Proof. split; reflexivity. Qed.

(** X12 at four way points on a straight road, the solver returning
    [0.1, 0.5]: a steer message is sent after one call of the solver. *)
Lemma telemetry_cycle_outcomes_witness :
  exists c : command R,
    telemetry_cycle (ext := answering [dlit 1 1; dlit 5 1])
                    0%nat (straight_road 4 10%R)
    = (Sent (Steer c), 1%nat).
Proof.
  destruct (telemetry_cycle_outcomes
              (ext := answering [dlit 1 1; dlit 5 1])
              0%nat (straight_road 4 10%R))
    as [[Hfew _] | [(_ & _ & c & Hc) | (_ & Hshort & _)]].
  - simpl. lia.
  - simpl in Hfew. lia.
  - exists c. exact Hc.
  - simpl in Hshort. lia.
Defined.
